(** * AVA command-line orchestration ([lib/cli.js]): a shallow embedding

    The development follows the source top to bottom: JavaScript values
    and the few primitives [cli.js] relies on, the [FLAGS] table, the
    flag merge that builds [combined], and then [exports.run] as a
    computation in a small trace-and-termination monad. *)

From Stdlib Require Import ZArith QArith.QArith_base.
From stdpp Require Import gmap strings list fin_maps.

Local Open Scope string_scope.
Local Open Scope Z_scope.
Local Open Scope list_scope.

(** ** JavaScript values *)

(** Numbers are IEEE doubles in the source.  [cli.js] never computes with
    them: it only asks whether a number is an integer, whether it is below
    zero and whether it is truthy.  A finite double is a rational, so
    finite numbers are carried as rationals. *)
Inductive number :=
| NFin (q : Q)
| NNaN
| NInf (negative : bool).

#[warnings="-register-all"]
Inductive value :=
| VUndefined
| VNull
| VBool (b : bool)
| VNum (n : number)
| VStr (s : string)
| VArr (items : list value)
| VObj (fields : list (string * value)).

(** A plain object used as a dictionary ([conf], [argv], [combined]). *)
Abbreviation obj := (gmap string value).

Definition num_of_Z (z : Z) : value := VNum (NFin (inject_Z z)).

Definition Qis_zero (q : Q) : bool := Qnum q =? 0.

(** [ToBoolean]. *)
Definition truthy (v : value) : bool :=
  match v with
  | VUndefined | VNull => false
  | VBool b => b
  | VNum (NFin q) => negb (Qis_zero q)
  | VNum NNaN => false
  | VNum (NInf _) => true
  | VStr s => negb (String.eqb s "")
  | VArr _ | VObj _ => true
  end.

(** [a || b] and [a && b] on values. *)
Definition js_or (a b : value) : value := if truthy a then a else b.
Definition js_and (a b : value) : value := if truthy a then b else a.

(** [o.k] / [o[k]] on a dictionary: a missing key reads as [undefined]. *)
Definition get (o : obj) (k : string) : value := default VUndefined (o !! k).

(** [Reflect.has(o, k)] on a dictionary. *)
Definition Reflect_has (o : obj) (k : string) : bool :=
  match o !! k with Some _ => true | None => false end.

Fixpoint assoc (k : string) (fields : list (string * value)) : option value :=
  match fields with
  | [] => None
  | (k', v) :: rest => if String.eqb k' k then Some v else assoc k rest
  end.

(** [v.k] for the own properties [cli.js] reads off caught errors and
    nested objects ([message], [parent], [stack], [code], [type], ...). *)
Definition prop (v : value) (k : string) : value :=
  match v with
  | VObj fields => default VUndefined (assoc k fields)
  | _ => VUndefined
  end.

(** [Number.isInteger(v)]: the integer a value denotes, when it is a
    finite number with no fractional part. *)
Definition Number_isInteger (v : value) : option Z :=
  match v with
  | VNum (NFin q) =>
      if Qnum q mod Z.pos (Qden q) =? 0 then Some (Qnum q / Z.pos (Qden q))
      else None
  | _ => None
  end.

(** [v === 'lit'] against a string literal. *)
Definition strict_eq_str (v : value) (lit : string) : bool :=
  match v with
  | VStr s => String.eqb s lit
  | _ => false
  end.

(** [v === false] / [v !== false] / [v === true]. *)
Definition strict_eq_bool (v : value) (b : bool) : bool :=
  match v with
  | VBool b' => Bool.eqb b' b
  | _ => false
  end.

(** [Array.isArray(value) ? value.pop() : value]. *)
Definition coerceLastValue (v : value) : value :=
  match v with
  | VArr items => List.last items VUndefined
  | _ => v
  end.

(** [arrify] from npm, on the values modelled here. *)
Definition arrify (v : value) : list value :=
  match v with
  | VUndefined | VNull => []
  | VArr items => items
  | _ => [v]
  end.

(** ** The option schema *)

Inductive flag_type := TBoolean | TNumber | TString.

Record flag_spec := {
  fs_alias : option string;
  fs_coerce : bool;            (* carries [coerce: coerceLastValue] *)
  fs_type : flag_type
}.

Definition FLAGS : list (string * flag_spec) :=
  [ ("concurrency",      {| fs_alias := Some "c"; fs_coerce := true;  fs_type := TNumber |});
    ("fail-fast",        {| fs_alias := None;     fs_coerce := true;  fs_type := TBoolean |});
    ("match",            {| fs_alias := Some "m"; fs_coerce := false; fs_type := TString |});
    ("node-arguments",   {| fs_alias := None;     fs_coerce := true;  fs_type := TString |});
    ("serial",           {| fs_alias := Some "s"; fs_coerce := true;  fs_type := TBoolean |});
    ("tap",              {| fs_alias := Some "t"; fs_coerce := true;  fs_type := TBoolean |});
    ("timeout",          {| fs_alias := Some "T"; fs_coerce := true;  fs_type := TString |});
    ("update-snapshots", {| fs_alias := Some "u"; fs_coerce := true;  fs_type := TBoolean |});
    ("verbose",          {| fs_alias := Some "v"; fs_coerce := true;  fs_type := TBoolean |});
    ("watch",            {| fs_alias := Some "w"; fs_coerce := true;  fs_type := TBoolean |}) ].

(** [Object.keys(FLAGS)]. *)
Definition FLAG_NAMES : list string := fst <$> FLAGS.

(** ** The flag merge (cli.js, the [combined] loop) *)

(** One iteration of [for (const flag of Object.keys(FLAGS))]. *)
Definition merge_flag (argv : obj) (combined : obj) (flag : string) : obj :=
  if Reflect_has argv flag then
    if String.eqb flag "fail-fast" then
      <["failFast" := get argv flag]> combined
    else if String.eqb flag "update-snapshots" then
      <["updateSnapshots" := get argv flag]> combined
    else if negb (String.eqb flag "node-arguments") then
      <[flag := get argv flag]> combined
    else combined
  else combined.

(** [const combined = {...conf}; for (...) {...}]. *)
Definition combine (conf argv : obj) : obj :=
  foldl (merge_flag argv) conf FLAG_NAMES.

(** *** The same loop over a store of objects

    [conf], [argv] and [combined] are references in the source.  The store
    maps references to dictionaries; [{...conf}] allocates a fresh
    dictionary holding a copy of the own properties of [conf], and every
    assignment in the loop goes through the reference [combined]. *)

Abbreviation ref := positive.
Abbreviation store := (gmap positive (gmap string value)).

Definition deref (h : store) (r : ref) : obj := default ∅ (h !! r).

Definition alloc (h : store) (o : obj) : store * ref :=
  let r := fresh (dom h) in (<[r := o]> h, r).

(** [{...src}]. *)
Definition spread (h : store) (src : ref) : store * ref := alloc h (deref h src).

(** [target[k] = v]. *)
Definition assign (h : store) (target : ref) (k : string) (v : value) : store :=
  <[target := <[k := v]> (deref h target)]> h.

Definition merge_flag_store (argv combined : ref) (h : store) (flag : string) : store :=
  if Reflect_has (deref h argv) flag then
    if String.eqb flag "fail-fast" then
      assign h combined "failFast" (get (deref h argv) flag)
    else if String.eqb flag "update-snapshots" then
      assign h combined "updateSnapshots" (get (deref h argv) flag)
    else if negb (String.eqb flag "node-arguments") then
      assign h combined flag (get (deref h argv) flag)
    else h
  else h.

Definition combine_store (h : store) (conf argv : ref) : store * ref :=
  let '(h1, combined) := spread h conf in
  (foldl (merge_flag_store argv combined) h1 FLAG_NAMES, combined).

(** ** Console text

    Diagnostics are template literals mixing literal text, symbols from
    [figures], values coerced to strings and [chalk] colouring. *)

Inductive figure := Cross | Tick | Warning.
Inductive colour := Red | Green | Gray | Magenta.

#[warnings="-register-all"]
Inductive seg :=
| Txt (s : string)
| Fig (f : figure)
| Val (v : value)                 (* a value interpolated into a template *)
| Paint (c : colour) (t : list seg).

Abbreviation text := (list seg).

(** ** Effects and termination *)

Inductive reporter_kind := TapReporter | VerboseReporter | MiniReporter.

Record event := { evt_type : value }.

(** A run plan as the engine emits it with ['run']: the fields [cli.js]
    reads, and the state changes its [status] emitter goes on to fire. *)
Record plan := {
  plan_debug : value;
  plan_files : list value;
  plan_status : list event
}.

(** The object the ['debug'] command handler stores in [debug]. *)
Record debug_info := {
  dbg_break : bool;
  dbg_files : value;
  dbg_port : value
}.

Record api_options := {
  cacheEnabled : bool;
  chalkOptions : value;
  concurrency : value;
  debug : option debug_info;
  environmentVariables : value;
  experiments : value;
  extensions : value;
  failFast : value;
  failWithoutAssertions : bool;
  globs : value;
  match_ : list value;
  moduleTypes : value;
  nodeArguments : value;
  parallelRuns : value;
  projectDir : value;
  providers : list value;
  ranFromCli : bool;
  require : list value;
  serial : value;
  snapshotDir : value;
  timeout : value;
  updateSnapshots : value;
  workerArgv : value
}.

Inductive effect :=
| ConsoleError (t : text)
| ConsoleLog (t : text)
| SetChalk (options : value)
| UpdateNotify
| Del (cacheDir : value)
| NewApi (options : api_options)
| NewReporter (kind : reporter_kind) (watching : option value)
| ReporterStartRun (p : plan)
| ReporterEndRun
| NewWatcher (filter : value)
| ObserveStdin
| ApiRun (filter : value)
| SetExitCode (code : value).

(** How an invocation ends: [process.exit(code)]; the async function
    returning (the process then ends with [process.exitCode]); an uncaught
    exception rejecting the returned promise; or, in watch mode, the
    process staying alive under the watcher.  In watch mode the async
    function itself has returned by then: [Watching] stands for the
    listeners it registered having seen every run without an interrupt. *)
Inductive ending :=
| Exited (code : Z)
| Returned
| Thrown (e : value)
| Watching.

(** A computation emits effects and either yields a result or ends the
    invocation. *)
Definition M (A : Type) : Type := list effect * (A + ending).

#[global] Instance M_ret : MRet M := fun A a => ([], inl a).

#[global] Instance M_bind : MBind M := fun A B k m =>
  match m with
  | (es, inl a) => let '(es', r) := k a in (es ++ es', r)
  | (es, inr e) => (es, inr e)
  end.

Definition emit (e : effect) : M unit := ([e], inl tt).
Definition finish {A} (e : ending) : M A := ([], inr e).
Definition throw {A} (e : value) : M A := finish (Thrown e).
Definition when (b : bool) (m : M unit) : M unit := if b then m else mret tt.

(** [process.exit(code)]. *)
Definition process_exit {A} (code : Z) : M A := finish (Exited code).

Definition LF : string := "
".

(** The line [exit] prints around its [message]. *)
Definition diagnostic (message : text) : text :=
  [Txt LF; Txt "  "; Paint Red [Fig Cross]; Txt " "] ++ message.

(** [function exit(message)]. *)
Definition exit {A} (message : text) : M A :=
  emit (ConsoleError (diagnostic message));;
  process_exit 1.

(** A finished invocation. *)
Definition trace {A} (m : M A) : list effect := fst m.
Definition ending_of {A} (m : M A) : option ending :=
  match snd m with inr e => Some e | inl _ => None end.

(** ** What [exports.run] is given

    The persisted configuration as [loadConfig] returned it (or the error
    it threw), and what [yargs] parsed: the [argv] object and the command
    whose handler ran.  The model starts once [yargs] has returned:
    [--help] and [--version] end the process inside [yargs], and which
    configuration file is loaded (the [config] option) is decided before
    that. *)

Inductive load_result :=
| Loaded (conf : obj)
| LoadFailed (error : value).

Inductive command := CmdRun | CmdDebug | CmdResetCache.

Record invocation := {
  inv_load : load_result;
  inv_argv : obj;
  inv_command : command
}.

Record run_status := { suggestExitCode : bool -> value }.

(** The collaborators [cli.js] calls and the process environment it reads.
    A collaborator that can throw returns [inr error].  [chalk_level] is
    the level [chalk] detected by itself, from the terminal and the
    process arguments. *)
Record externals := {
  isCi : bool;
  ciParallelVars : value;
  stdout_isTTY : value;
  chalk_level : value;
  path_join : list string -> string;
  path_resolve : value -> value -> value;
  del : value -> option value;
  readPkg_sync : value -> value + value;
  provider_babel : value -> value -> (value * value) + value;
  provider_typescript : value -> value -> (value * value) + value;
  validateEnvironmentVariables : value -> value + value;
  normalizeExtensions : value -> list value -> value + value;
  normalizeGlobs : value -> value -> value -> list value -> value + value;
  normalizeNodeArguments : value -> value -> value + value;
  relative_patterns : value -> list value -> value + value;
  api_run : api_options -> value -> list plan * (run_status + value);
  watcher_runs : api_options -> value -> list plan
}.

(** ** [exports.run] *)

Definition TypeError : value := VObj [("name", VStr "TypeError")].

(** [Object.keys(v).length]; [Object.keys] throws on [undefined] and
    [null]. *)
Definition Object_keys_length (v : value) : option nat :=
  match v with
  | VUndefined | VNull => None
  | VObj fields => Some (length fields)
  | VArr items => Some (length items)
  | VStr s => Some (String.length s)
  | VBool _ | VNum _ => Some 0%nat
  end.

(** [(error && error.stack) || error]. *)
Definition stack_or_self (error : value) : value :=
  js_or (js_and error (prop error "stack")) error.

Definition conf_of (l : load_result) : obj :=
  match l with Loaded conf => conf | LoadFailed _ => ∅ end.

Definition confError_of (l : load_result) : value :=
  match l with Loaded _ => VNull | LoadFailed error => error end.

(** The ['debug'] command handler; no other handler touches [debug]. *)
Definition debug_of (c : command) (argv : obj) : option debug_info :=
  match c with
  | CmdDebug => Some {| dbg_break := strict_eq_bool (get argv "break") true;
                        dbg_files := get argv "pattern";
                        dbg_port := get argv "port" |}
  | _ => None
  end.

(** The ['reset-cache'] command handler. *)
Definition resetCache_of (c : command) : bool :=
  match c with CmdResetCache => true | _ => false end.

Definition MSG_WATCH_TAP : string :=
  "The TAP reporter is not available when using watch mode.".
Definition MSG_WATCH_CI : string :=
  "Watch mode is not available in CI, as it prevents AVA from terminating.".
Definition MSG_WATCH_DEBUG : string :=
  "Watch mode is not available when debugging.".
Definition MSG_DEBUG_TAP : string :=
  "The TAP reporter is not available when debugging.".
Definition MSG_DEBUG_CI : string :=
  "Debugging is not available in CI.".
Definition MSG_CONCURRENCY : string :=
  "The --concurrency or -c flag must be provided with a nonnegative integer.".
Definition MSG_COMPILE_ENHANCEMENTS : string :=
  "Enhancement compilation must be configured in AVA’s Babel options.".
Definition MSG_HELPERS : string :=
  "AVA no longer compiles helpers. Add exclusion patterns to the 'files' configuration and specify 'compileAsTests' in the Babel options instead.".
Definition MSG_SOURCES : string :=
  "'sources' has been removed. Use 'ignoredByWatcher' to provide glob patterns of files that the watcher should ignore.".
Definition MSG_DEBUG_FILE : string :=
  "Provide the path to the test file you wish to debug".

(** [if (confError) {...}]. *)
Definition surface_confError (confError : value) : M unit :=
  when (truthy confError)
    (if truthy (prop confError "parent") then
       exit [Val (prop confError "message"); Txt LF; Txt LF;
             Paint Gray [Val (js_or (js_and (prop confError "parent")
                                            (prop (prop confError "parent") "stack"))
                                    (prop confError "parent"))]]
     else
       exit [Val (prop confError "message")]).

(** [if (argv.watch) {...}]. *)
Definition check_watch (ci : bool) (argv conf : obj) (dbg : option debug_info) : M unit :=
  when (truthy (get argv "watch"))
    (when (truthy (get argv "tap") && negb (truthy (get conf "tap")))
       (exit [Txt MSG_WATCH_TAP]);;
     when ci (exit [Txt MSG_WATCH_CI]);;
     when (bool_decide (dbg ≠ None)) (exit [Txt MSG_WATCH_DEBUG])).

(** [if (debug !== null) {...}]. *)
Definition check_debug (ci : bool) (argv conf combined : obj) (dbg : option debug_info) : M unit :=
  when (bool_decide (dbg ≠ None))
    (when (truthy (get argv "tap") && negb (truthy (get conf "tap")))
       (exit [Txt MSG_DEBUG_TAP]);;
     when ci (exit [Txt MSG_DEBUG_CI]);;
     when (truthy (get combined "timeout"))
       (emit (ConsoleLog [Paint Magenta
          [Txt "  "; Fig Warning;
           Txt " The timeout option has been disabled to help with debugging."]]))).

(** [Reflect.has(combined, 'concurrency') &&
     (!Number.isInteger(combined.concurrency) || combined.concurrency < 0)];
    the comparison is only reached on an integer. *)
Definition bad_concurrency (combined : obj) : bool :=
  Reflect_has combined "concurrency" &&
  match Number_isInteger (get combined "concurrency") with
  | None => true
  | Some z => z <? 0
  end.

Definition check_concurrency (combined : obj) : M unit :=
  when (bad_concurrency combined) (exit [Txt MSG_CONCURRENCY]).

(** [if (!combined.tap && Object.keys(experiments).length > 0) {...}]. *)
Definition warn_experiments (combined : obj) (experiments : value) : M unit :=
  if negb (truthy (get combined "tap")) then
    match Object_keys_length experiments with
    | None => throw TypeError
    | Some n =>
        when (0 <? n)%nat
          (emit (ConsoleLog [Paint Magenta
             [Txt "  "; Fig Warning;
              Txt " Experiments are enabled. These are unsupported and may change or be removed at any time."]]))
    end
  else mret tt.

(** The three [Reflect.has(conf, ...)] checks. *)
Definition check_legacy (conf : obj) : M unit :=
  when (Reflect_has conf "compileEnhancements") (exit [Txt MSG_COMPILE_ENHANCEMENTS]);;
  when (Reflect_has conf "helpers") (exit [Txt MSG_HELPERS]);;
  when (Reflect_has conf "sources") (exit [Txt MSG_SOURCES]).

(** The reporter [if]/[else if]/[else]. *)
Definition select_reporter (ci : bool) (isTTY : value) (combined : obj)
    (dbg : option debug_info) : reporter_kind :=
  if truthy (get combined "tap") && negb (truthy (get combined "watch"))
     && bool_decide (dbg = None)
  then TapReporter
  else if bool_decide (dbg ≠ None) || truthy (get combined "verbose") || ci
          || negb (truthy isTTY)
  then VerboseReporter
  else MiniReporter.

Definition new_reporter (kind : reporter_kind) (combined : obj) : M unit :=
  match kind with
  | TapReporter => emit (NewReporter TapReporter None)
  | k => emit (NewReporter k (Some (get combined "watch")))
  end.

(** The ['stateChange'] listener. *)
Definition on_stateChange (evt : event) : M unit :=
  when (strict_eq_str (evt_type evt) "interrupt")
    (emit ReporterEndRun;; process_exit 1).

(** The state changes of one plan reaching the listener, in order. *)
Fixpoint deliver (evts : list event) : M unit :=
  match evts with
  | [] => mret tt
  | evt :: rest => on_stateChange evt;; deliver rest
  end.

(** The first ['run'] listener, followed by the plan's state changes. *)
Definition on_run (p : plan) : M unit :=
  emit (ReporterStartRun p);; deliver (plan_status p).

(** [plan.debug && plan.files.length !== 1]. *)
Definition debug_plan_without_single_file (p : plan) : bool :=
  truthy (plan_debug p) && negb (length (plan_files p) =? 1)%nat.

(** One-shot mode: both ['run'] listeners see every plan; the second one
    latches [debugWithoutSpecificFile]. *)
Fixpoint observe_runs (plans : list plan) (debugWithoutSpecificFile : bool) : M bool :=
  match plans with
  | [] => mret debugWithoutSpecificFile
  | p :: rest =>
      emit (ReporterStartRun p);;
      let flag := if debug_plan_without_single_file p then true
                  else debugWithoutSpecificFile in
      deliver (plan_status p);;
      observe_runs rest flag
  end.

(** Watch mode: only the first listener is registered. *)
Fixpoint observe_watch (plans : list plan) : M unit :=
  match plans with
  | [] => mret tt
  | p :: rest => on_run p;; observe_watch rest
  end.

Section Run.
Context (X : externals).

(** [if (resetCache) {...; return;}]. *)
Definition reset_cache (projectDir : value) : M unit :=
  match projectDir with
  | VStr dir =>
      let cacheDir := VStr (path_join X [dir; "node_modules"; ".cache"; "ava"]) in
      emit (Del cacheDir);;
      match del X cacheDir with
      | None =>
          emit (ConsoleError [Txt LF; Paint Green [Fig Tick];
                              Txt " Removed AVA cache files in "; Val cacheDir]);;
          process_exit 0
      | Some error =>
          exit [Txt "Error removing AVA cache files in "; Val cacheDir;
                Txt LF; Txt LF; Paint Gray [Val (stack_or_self error)]]
      end
  | _ => throw TypeError          (* [path.join] on a non-string *)
  end.

(** Everything between the cache reset and the [require]s: the checks
    that end the process with a diagnostic, and the two notices. *)
Definition validate (argv conf combined : obj) (dbg : option debug_info)
    (experiments : value) : M unit :=
  check_watch (isCi X) argv conf dbg;;
  check_debug (isCi X) argv conf combined dbg;;
  check_concurrency combined;;
  warn_experiments combined experiments;;
  check_legacy conf.

(** [readPkg.sync] and the module types. *)
Definition read_moduleTypes (projectDir : value) : M value :=
  pkg ← match readPkg_sync X projectDir with
        | inl pkg => mret pkg
        | inr error =>
            if negb (strict_eq_str (prop error "code") "ENOENT") then throw error
            else mret VUndefined
        end;
  let type := prop (js_or pkg (VObj [])) "type" in
  let defaultModuleType :=
    match type with VUndefined => VStr "commonjs" | t => t end in
  mret (VObj [("cjs", VStr "commonjs"); ("mjs", VStr "module");
              ("js", defaultModuleType)]).

Definition add_provider (name : string)
    (resolve : value -> value -> (value * value) + value)
    (conf : obj) (projectDir : value) (providers : list value) : M (list value) :=
  if Reflect_has conf name then
    match resolve projectDir (get conf name) with
    | inl (level, main) =>
        mret (providers ++ [VObj [("level", level); ("main", main);
                                  ("type", VStr name)]])
    | inr error => exit [Val (prop error "message")]
    end
  else mret providers.

(** [try { x = f(...) } catch (error) { exit(error.message) }]. *)
Definition or_exit (r : value + value) : M value :=
  match r with
  | inl v => mret v
  | inr error => exit [Val (prop error "message")]
  end.

Definition or_throw (r : value + value) : M value :=
  match r with
  | inl v => mret v
  | inr error => throw error
  end.

Definition parallelRuns_of : value :=
  if isCi X && truthy (ciParallelVars X) then
    VObj [("currentIndex", prop (ciParallelVars X) "index");
          ("totalRuns", prop (ciParallelVars X) "total")]
  else VNull.

(** [combined.match === '' ? [] : arrify(combined.match)]. *)
Definition match_of (combined : obj) : list value :=
  if strict_eq_str (get combined "match") "" then []
  else arrify (get combined "match").

(** [debug ? debug.files : (argv.pattern || [])]. *)
Definition input_of (argv : obj) (dbg : option debug_info) : value :=
  match dbg with
  | Some d => dbg_files d
  | None => js_or (get argv "pattern") (VArr [])
  end.

(** [normalizePatterns(input.map(...))]; [map] exists on arrays only. *)
Definition filter_of (projectDir input : value) : M value :=
  match input with
  | VArr items => or_throw (relative_patterns X projectDir items)
  | _ => throw TypeError
  end.

(** One-shot mode, from [api.run] to the end of the function. *)
Definition one_shot (options : api_options) (filter : value) : M unit :=
  emit (ApiRun filter);;
  let '(plans, result) := api_run X options filter in
  debugWithoutSpecificFile ← observe_runs plans false;
  match result return M unit with
  | inr error => throw error
  | inl runStatus =>
      if (debugWithoutSpecificFile : bool) then exit [Txt MSG_DEBUG_FILE]
      else
        emit (SetExitCode
                (suggestExitCode runStatus (0 <? length (match_ options))%nat));;
        emit ReporterEndRun;;
        finish Returned
  end.

(** Watch mode: the watcher owns the runs; the process stays alive
    unless a listener ends it. *)
Definition watch (options : api_options) (filter : value) : M unit :=
  emit (NewWatcher filter);;
  emit ObserveStdin;;
  observe_watch (watcher_runs X options filter);;
  finish Watching.

(** [{level: combined.color === false ? 0 : require('chalk').level}]. *)
Definition chalkOptions_of (combined : obj) : value :=
  VObj [("level", if strict_eq_bool (get combined "color") false
                  then num_of_Z 0 else chalk_level X)].

Definition run (i : invocation) : M unit :=
  let conf := conf_of (inv_load i) in
  let confError := confError_of (inv_load i) in
  let argv := inv_argv i in
  let dbg := debug_of (inv_command i) argv in
  let resetCache := resetCache_of (inv_command i) in
  let combined := combine conf argv in
  let chalkOptions := chalkOptions_of combined in
  emit (SetChalk chalkOptions);;
  surface_confError confError;;
  emit UpdateNotify;;
  let experiments := get conf "nonSemVerExperiments" in
  let projectDir := get conf "projectDir" in
  if resetCache then reset_cache projectDir
  else
    validate argv conf combined dbg experiments;;
    moduleTypes ← read_moduleTypes projectDir;
    providers ← add_provider "babel" (provider_babel X) conf projectDir [];
    providers ← add_provider "typescript" (provider_typescript X) conf projectDir providers;
    environmentVariables ←
      or_exit (validateEnvironmentVariables X (get conf "environmentVariables"));
    extensions ← or_exit (normalizeExtensions X (get conf "extensions") providers);
    globs ← or_exit (normalizeGlobs X (get conf "files") (get conf "ignoredByWatcher")
                                    extensions providers);
    nodeArguments ←
      or_exit (normalizeNodeArguments X (get conf "nodeArguments")
                                      (get argv "node-arguments"));
    let parallelRuns := parallelRuns_of in
    let match_ := match_of combined in
    filter ← filter_of projectDir (input_of argv dbg);
    let options :=
      {| cacheEnabled := negb (strict_eq_bool (get combined "cache") false);
         chalkOptions := chalkOptions;
         concurrency := js_or (get combined "concurrency") (num_of_Z 0);
         debug := dbg;
         environmentVariables := environmentVariables;
         experiments := experiments;
         extensions := extensions;
         failFast := get combined "failFast";
         failWithoutAssertions :=
           negb (strict_eq_bool (get combined "failWithoutAssertions") false);
         globs := globs;
         match_ := match_;
         moduleTypes := moduleTypes;
         nodeArguments := nodeArguments;
         parallelRuns := parallelRuns;
         projectDir := projectDir;
         providers := providers;
         ranFromCli := true;
         require := arrify (get combined "require");
         serial := get combined "serial";
         snapshotDir :=
           if truthy (get combined "snapshotDir")
           then path_resolve X projectDir (get combined "snapshotDir")
           else VNull;
         timeout := js_or (get combined "timeout") (VStr "10s");
         updateSnapshots := get combined "updateSnapshots";
         workerArgv := get argv "--" |} in
    emit (NewApi options);;
    new_reporter (select_reporter (isCi X) (stdout_isTTY X) combined dbg) combined;;
    if truthy (get combined "watch") then watch options filter
    else one_shot options filter.

End Run.

(** * Vocabulary of the properties *)

(** ** The flag merge *)

(** The field an iteration of the loop assigns for [flag], if any. *)
Definition merge_target (flag : string) : option string :=
  if String.eqb flag "fail-fast" then Some "failFast"
  else if String.eqb flag "update-snapshots" then Some "updateSnapshots"
  else if String.eqb flag "node-arguments" then None
  else Some flag.

(** The flag whose command-line value ends up in field [k], if any. *)
Definition writer (k : string) : option string :=
  if String.eqb k "failFast" then Some "fail-fast"
  else if String.eqb k "updateSnapshots" then Some "update-snapshots"
  else if bool_decide (k ∈ ["concurrency"; "match"; "serial"; "tap"; "timeout";
                            "verbose"; "watch"])
  then Some k
  else None.

(** ** Observations on a finished invocation *)

(** The effects that belong to a mode: building the engine or a reporter,
    starting the watcher, running the engine, driving the reporter,
    deleting cache files, setting the exit code. *)
Definition mode_specific (e : effect) : bool :=
  match e with
  | Del _ | NewApi _ | NewReporter _ _ | ReporterStartRun _ | ReporterEndRun
  | NewWatcher _ | ObserveStdin | ApiRun _ | SetExitCode _ => true
  | ConsoleError _ | ConsoleLog _ | SetChalk _ | UpdateNotify => false
  end.

Definition mode_free (es : list effect) : bool :=
  forallb (fun e => negb (mode_specific e)) es.

(** The rendering of a captured configuration error. *)
Definition confError_text (confError : value) : text :=
  if truthy (prop confError "parent") then
    [Val (prop confError "message"); Txt LF; Txt LF;
     Paint Gray [Val (js_or (js_and (prop confError "parent")
                                    (prop (prop confError "parent") "stack"))
                            (prop confError "parent"))]]
  else [Val (prop confError "message")].


(** The canonical field of a flag as the specification words it:
    [fail-fast] and [update-snapshots] are renamed, any other flag keeps
    its name. *)
Definition canonical_field (flag : string) : string :=
  if String.eqb flag "fail-fast" then "failFast"
  else if String.eqb flag "update-snapshots" then "updateSnapshots"
  else flag.

(** The fields of [combined] the loop can assign. *)
Definition merged_fields : list string :=
  ["concurrency"; "failFast"; "match"; "serial"; "tap"; "timeout";
   "updateSnapshots"; "verbose"; "watch"].

(** ** A sample project

    Concrete collaborators and inputs on which the model is run: an
    interactive terminal outside CI, collaborators that succeed and an
    engine that emits no plan unless stated otherwise. *)

Definition status_of (code : Z) : run_status :=
  {| suggestExitCode := fun _ => num_of_Z code |}.

Definition sample_externals (plans : list plan) (result : run_status + value) : externals :=
  {| isCi := false;
     ciParallelVars := VUndefined;
     stdout_isTTY := VBool true;
     chalk_level := num_of_Z 1;
     path_join := fun parts => foldr (fun a b => String.append a (String.append "/" b)) "" parts;
     path_resolve := fun _ p => p;
     del := fun _ => None;
     readPkg_sync := fun _ => inl (VObj []);
     provider_babel := fun _ _ => inl (num_of_Z 1, VObj []);
     provider_typescript := fun _ _ => inl (num_of_Z 1, VObj []);
     validateEnvironmentVariables := fun v => inl v;
     normalizeExtensions := fun v _ => inl v;
     normalizeGlobs := fun files _ _ _ => inl files;
     normalizeNodeArguments := fun persisted cli => inl (js_or cli persisted);
     relative_patterns := fun _ items => inl (VArr items);
     api_run := fun _ _ => (plans, result);
     watcher_runs := fun _ _ => plans |}.

Definition quiet : externals := sample_externals [] (inl (status_of 0)).

(** What [loadConfig] always provides. *)
Definition sample_conf : obj :=
  {[ "nonSemVerExperiments" := VObj []; "projectDir" := VStr "/project" ]}.

(** A store holding a persisted configuration at reference 1 and a
    parsed command line at reference 2. *)
Definition sample_store : store :=
  {[ 1%positive := <["failFast" := VBool false]> sample_conf;
     2%positive := {[ "fail-fast" := VBool true; "verbose" := VBool true ]} ]}.

(** Sample invocations. *)

(** [ava debug test.js] in a project whose configuration sets
    [watch: true]. *)
Definition debug_with_persisted_watch : invocation :=
  {| inv_load := Loaded (<["watch" := VBool true]> sample_conf);
     inv_argv := {[ "pattern" := VArr [VStr "test.js"]; "port" := num_of_Z 9229 ]};
     inv_command := CmdDebug |}.

(** [ava --tap] in a project whose configuration sets [watch: true]. *)
Definition tap_with_persisted_watch : invocation :=
  {| inv_load := Loaded (<["watch" := VBool true]> sample_conf);
     inv_argv := {[ "tap" := VBool true ]};
     inv_command := CmdRun |}.

(** [ava debug --watch test.js]. *)
Definition debug_with_watch_flag : invocation :=
  {| inv_load := Loaded sample_conf;
     inv_argv := {[ "pattern" := VArr [VStr "test.js"]; "port" := num_of_Z 9229;
                    "watch" := VBool true ]};
     inv_command := CmdDebug |}.

(** [ava --watch --tap]. *)
Definition watch_tap_flags : invocation :=
  {| inv_load := Loaded sample_conf;
     inv_argv := {[ "watch" := VBool true; "tap" := VBool true ]};
     inv_command := CmdRun |}.

(** [ava --watch --tap] in a project whose configuration sets [tap: true]. *)
Definition watch_tap_flags_with_persisted_tap : invocation :=
  {| inv_load := Loaded (<["tap" := VBool true]> sample_conf);
     inv_argv := {[ "watch" := VBool true; "tap" := VBool true ]};
     inv_command := CmdRun |}.

(** ** Concurrency values, in the words of the specification *)

(** [v] is the number [z]. *)
Definition denotes (v : value) (z : Z) : Prop :=
  ∃ q, v = VNum (NFin q) ∧ Qeq q (inject_Z z).

Definition negative_or_not_integer (v : value) : Prop :=
  (∀ z, ¬ denotes v z) ∨ (∃ z, denotes v z ∧ z < 0).

(** [ava --concurrency -1] in a default project. *)
Definition concurrency_minus_one : invocation :=
  {| inv_load := Loaded sample_conf;
     inv_argv := {[ "concurrency" := num_of_Z (-1) ]};
     inv_command := CmdRun |}.

(** ** Shapes of a validation step *)

(** The step ends the process with exit code 1 and has no mode-specific
    effect. *)
Definition fatal {A} (m : M A) : Prop :=
  ∃ es, m = (es, inr (Exited 1)) ∧ mode_free es = true.

(** The step has no mode-specific effect and either lets the invocation
    continue or ends it with exit code 1. *)
Definition benign (m : M unit) : Prop :=
  ∃ es, mode_free es = true ∧ (m = (es, inl tt) ∨ m = (es, inr (Exited 1))).

(** The legacy keys and the message of each. *)
Definition legacy_keys : list string := ["compileEnhancements"; "helpers"; "sources"].


(** The first legacy key the configuration holds, in the order the
    checks run. *)
Definition first_legacy (conf : obj) : option string :=
  List.find (Reflect_has conf) legacy_keys.



(** ** Reporter selection, in the words of the specification *)

(** Three rules in priority order over the resolved flags and the
    terminal and CI context. *)
Definition reporter_by_priority
    (tap watching debugging verbose ci interactive : bool) : reporter_kind :=
  if tap && negb watching && negb debugging then TapReporter
  else if debugging || verbose || ci || negb interactive then VerboseReporter
  else MiniReporter.

(** Every effect of a computation satisfies [P]. *)
Definition emits_only {A} (P : effect → Prop) (m : M A) : Prop :=
  Forall P (trace m).

(** [e], if it builds a reporter, builds [kind] with [watching]. *)
Definition builds_only (kind : reporter_kind) (watching : option value)
    (e : effect) : Prop :=
  ∀ k w, e = NewReporter k w → k = kind ∧ w = watching.

(** The [watching] option a reporter of [kind] is built with; the TAP
    reporter takes none. *)
Definition watching_of (kind : reporter_kind) (combined : obj) : option value :=
  match kind with
  | TapReporter => None
  | _ => Some (get combined "watch")
  end.

(** [ava] with no flag in a default project. *)
Definition plain_run : invocation :=
  {| inv_load := Loaded sample_conf; inv_argv := ∅; inv_command := CmdRun |}.

(** [ava --tap]. *)
Definition tap_run : invocation :=
  {| inv_load := Loaded sample_conf;
     inv_argv := {[ "tap" := VBool true ]};
     inv_command := CmdRun |}.

(** ** Plans and state changes *)

Definition is_interrupt (evt : event) : Prop := evt_type evt = VStr "interrupt".

(** No state change of the plans is an interrupt. *)
Definition uninterrupted (plans : list plan) : Prop :=
  Forall (fun p => Forall (fun evt => ¬ is_interrupt evt) (plan_status p)) plans.

Definition debug_plan (files : list value) (status : list event) : plan :=
  {| plan_debug := VBool true; plan_files := files; plan_status := status |}.

(** [ava debug missing.js]: the engine resolves no file. *)
Definition debug_no_file : invocation :=
  {| inv_load := Loaded sample_conf;
     inv_argv := {[ "pattern" := VArr [VStr "missing.js"]; "port" := num_of_Z 9229 ]};
     inv_command := CmdDebug |}.

(** [ava debug a.js b.js]. *)
Definition debug_two_files : invocation :=
  {| inv_load := Loaded sample_conf;
     inv_argv := {[ "pattern" := VArr [VStr "a.js"; VStr "b.js"];
                    "port" := num_of_Z 9229 ]};
     inv_command := CmdDebug |}.

Definition two_files_plan : plan :=
  debug_plan [VStr "/project/a.js"; VStr "/project/b.js"] [].

Definition interrupted_plan : plan :=
  {| plan_debug := VBool false;
     plan_files := [VStr "/project/test.js"];
     plan_status := [ {| evt_type := VStr "worker-finished" |};
                      {| evt_type := VStr "interrupt" |};
                      {| evt_type := VStr "end" |} ] |}.

(** The engine options [plain_run] resolves to. *)
Definition sample_options : api_options :=
  {| cacheEnabled := true;
     chalkOptions := VObj [("level", num_of_Z 1)];
     concurrency := num_of_Z 0;
     debug := None;
     environmentVariables := VUndefined;
     experiments := VObj [];
     extensions := VUndefined;
     failFast := VUndefined;
     failWithoutAssertions := true;
     globs := VUndefined;
     match_ := [];
     moduleTypes := VObj [("cjs", VStr "commonjs"); ("mjs", VStr "module");
                          ("js", VStr "commonjs")];
     nodeArguments := VUndefined;
     parallelRuns := VNull;
     projectDir := VStr "/project";
     providers := [];
     ranFromCli := true;
     require := [];
     serial := VUndefined;
     snapshotDir := VNull;
     timeout := VStr "10s";
     updateSnapshots := VUndefined;
     workerArgv := VUndefined |}.

(** * Further vocabulary *)

(** ** Merging twice *)

(** [ava --match] on a project that persists two patterns. *)
Definition conf_with_patterns : obj :=
  <["match" := VArr [VStr "unit*"; VStr "smoke*"]]> sample_conf.

(** ** Validation as a whole *)

(** TAP asked for on the command line only: [argv.tap && !conf.tap]. *)
Definition adhoc_tap (argv conf : obj) : bool :=
  truthy (get argv "tap") && negb (truthy (get conf "tap")).

(** No check between the cache reset and the [require]s ends the
    process. *)
Definition validation_passes (ci : bool) (argv conf combined : obj)
    (dbg : option debug_info) (experiments : value) : bool :=
  (negb (truthy (get argv "watch"))
   || negb (adhoc_tap argv conf) && negb ci && bool_decide (dbg = None))
  && (bool_decide (dbg = None) || negb (adhoc_tap argv conf) && negb ci)
  && negb (bad_concurrency combined)
  && (truthy (get combined "tap")
      || match Object_keys_length experiments with Some _ => true | None => false end)
  && match first_legacy conf with None => true | Some _ => false end.

Definition timeout_notice : effect :=
  ConsoleLog [Paint Magenta
    [Txt "  "; Fig Warning;
     Txt " The timeout option has been disabled to help with debugging."]].

Definition experiments_notice : effect :=
  ConsoleLog [Paint Magenta
    [Txt "  "; Fig Warning;
     Txt " Experiments are enabled. These are unsupported and may change or be removed at any time."]].

(** What a passing validation prints. *)
Definition validation_notices (combined : obj) (dbg : option debug_info)
    (experiments : value) : list effect :=
  (if bool_decide (dbg ≠ None) && truthy (get combined "timeout")
   then [timeout_notice] else []) ++
  (if negb (truthy (get combined "tap"))
      && match Object_keys_length experiments with
         | Some n => (0 <? n)%nat
         | None => false
         end
   then [experiments_notice] else []).

(** [ava debug --timeout 5s test.js] in a project with an experiment
    switched on. *)
Definition debug_with_timeout : invocation :=
  {| inv_load := Loaded (<["nonSemVerExperiments" := VObj [("tryAssertion", VBool true)]]>
                           sample_conf);
     inv_argv := {[ "pattern" := VArr [VStr "test.js"]; "port" := num_of_Z 9229;
                    "timeout" := VStr "5s" ]};
     inv_command := CmdDebug |}.

(** ** Invariants of a whole invocation *)

(** Every effect satisfies [P] and, if the computation ends the
    invocation, the ending satisfies [Q]. *)
Definition obeys {A} (P : effect → Prop) (Q : ending → Prop) (m : M A) : Prop :=
  Forall P (trace m) ∧ ∀ e, snd m = inr e → Q e.

(** Effects whose arguments the invariants below do not constrain. *)
Definition ordinary (e : effect) : bool :=
  match e with
  | SetChalk _ | NewApi _ | NewReporter _ _ => false
  | _ => true
  end.

(** The two provider steps in a row. *)
Definition resolve_providers (X : externals) (conf : obj) (projectDir : value)
    : M (list value) :=
  providers ← add_provider "babel" (provider_babel X) conf projectDir [];
  add_provider "typescript" (provider_typescript X) conf projectDir providers.

(** The merged configuration, the debug descriptor and the reporter of
    an invocation. *)
Abbreviation combined_of i := (combine (conf_of (inv_load i)) (inv_argv i)).

Abbreviation dbg_of i := (debug_of (inv_command i) (inv_argv i)).

Abbreviation selected_reporter X i :=
  (select_reporter (isCi X) (stdout_isTTY X) (combined_of i) (dbg_of i)).

(** The cache directory [reset-cache] clears. *)
Definition cacheDir_of (X : externals) (dir : string) : value :=
  VStr (path_join X [dir; "node_modules"; ".cache"; "ava"]).

(** What is known of the options the engine is built with: the
    invocation got past the configuration error, is not a cache reset
    and passed validation; every preparation step returned, and each
    option is what the step or the merged configuration gives. *)
Record built_from (X : externals) (i : invocation) (o : api_options) : Prop := {
  bf_loaded : truthy (confError_of (inv_load i)) = false;
  bf_command : resetCache_of (inv_command i) = false;
  bf_validated :
    validation_passes (isCi X) (inv_argv i) (conf_of (inv_load i)) (combined_of i)
      (dbg_of i) (get (conf_of (inv_load i)) "nonSemVerExperiments") = true;
  bf_moduleTypes :
    ∃ es, read_moduleTypes X (get (conf_of (inv_load i)) "projectDir")
          = (es, inl (moduleTypes o));
  bf_providers :
    ∃ es, resolve_providers X (conf_of (inv_load i))
            (get (conf_of (inv_load i)) "projectDir")
          = (es, inl (providers o));
  bf_environmentVariables :
    validateEnvironmentVariables X (get (conf_of (inv_load i)) "environmentVariables")
    = inl (environmentVariables o);
  bf_extensions :
    normalizeExtensions X (get (conf_of (inv_load i)) "extensions") (providers o)
    = inl (extensions o);
  bf_globs :
    normalizeGlobs X (get (conf_of (inv_load i)) "files")
      (get (conf_of (inv_load i)) "ignoredByWatcher") (extensions o) (providers o)
    = inl (globs o);
  bf_nodeArguments :
    normalizeNodeArguments X (get (conf_of (inv_load i)) "nodeArguments")
      (get (inv_argv i) "node-arguments")
    = inl (nodeArguments o);
  bf_concurrency :
    concurrency o = js_or (get (combined_of i) "concurrency") (num_of_Z 0);
  bf_timeout : timeout o = js_or (get (combined_of i) "timeout") (VStr "10s");
  bf_match : match_ o = match_of (combined_of i);
  bf_debug : debug o = dbg_of i;
  bf_parallelRuns : parallelRuns o = parallelRuns_of X;
  bf_cacheEnabled :
    cacheEnabled o = negb (strict_eq_bool (get (combined_of i) "cache") false);
  bf_failWithoutAssertions :
    failWithoutAssertions o
    = negb (strict_eq_bool (get (combined_of i) "failWithoutAssertions") false);
  bf_require : require o = arrify (get (combined_of i) "require");
  bf_snapshotDir :
    snapshotDir o
    = if truthy (get (combined_of i) "snapshotDir")
      then path_resolve X (get (conf_of (inv_load i)) "projectDir")
                        (get (combined_of i) "snapshotDir")
      else VNull;
  bf_chalkOptions : chalkOptions o = chalkOptions_of X (combined_of i);
  bf_failFast : failFast o = get (combined_of i) "failFast";
  bf_serial : serial o = get (combined_of i) "serial";
  bf_updateSnapshots : updateSnapshots o = get (combined_of i) "updateSnapshots";
  bf_experiments : experiments o = get (conf_of (inv_load i)) "nonSemVerExperiments";
  bf_projectDir : projectDir o = get (conf_of (inv_load i)) "projectDir";
  bf_workerArgv : workerArgv o = get (inv_argv i) "--";
  bf_ranFromCli : ranFromCli o = true
}.

(** Entries of the merged configuration the command line has no flag
    for: the merge takes them from the loaded configuration and never
    from [argv]. *)
Definition persisted_only : list string :=
  ["cache"; "failWithoutAssertions"; "require"; "snapshotDir"].

(** [ava --concurrency 4 --cache --require ./setup.js] in a project that
    persists [cache: false]. *)
Definition run_with_persisted_cache_off : invocation :=
  {| inv_load := Loaded (<["cache" := VBool false]> sample_conf);
     inv_argv := {[ "concurrency" := num_of_Z 4; "cache" := VBool true;
                    "require" := VStr "./setup.js" ]};
     inv_command := CmdRun |}.

(** ** Further sample collaborators and invocations *)

(** The sample collaborators, with CI detection, the outcome of the
    cache deletion, of reading the package manifest, of resolving the
    Babel provider and of validating the environment variables chosen
    by the caller. *)
Definition custom_externals (ci : bool) (deleted : option value)
    (pkg : value + value) (babel : (value * value) + value)
    (env : value + value) : externals :=
  {| isCi := ci;
     ciParallelVars := VUndefined;
     stdout_isTTY := VBool true;
     chalk_level := num_of_Z 1;
     path_join := path_join quiet;
     path_resolve := fun _ p => p;
     del := fun _ => deleted;
     readPkg_sync := fun _ => pkg;
     provider_babel := fun _ _ => babel;
     provider_typescript := fun _ _ => inl (num_of_Z 1, VObj []);
     validateEnvironmentVariables := fun _ => env;
     normalizeExtensions := fun v _ => inl v;
     normalizeGlobs := fun files _ _ _ => inl files;
     normalizeNodeArguments := fun persisted cli => inl (js_or cli persisted);
     relative_patterns := fun _ items => inl (VArr items);
     api_run := fun _ _ => ([], inl (status_of 0));
     watcher_runs := fun _ _ => [] |}.

Definition error_of (message : string) : value := VObj [("message", VStr message)].

(** A CI machine. *)
Definition in_ci : externals :=
  custom_externals true None (inl (VObj [])) (inl (num_of_Z 1, VObj [])) (inl VUndefined).

(** The cache directory cannot be cleared. *)
Definition undeletable : externals :=
  custom_externals false (Some (error_of "EACCES")) (inl (VObj []))
                   (inl (num_of_Z 1, VObj [])) (inl VUndefined).

(** [ava reset-cache --concurrency -1] in a project that still has
    [helpers]. *)
Definition reset_cache_despite_everything : invocation :=
  {| inv_load := Loaded (<["helpers" := VArr []]> sample_conf);
     inv_argv := {[ "concurrency" := num_of_Z (-1); "watch" := VBool true ]};
     inv_command := CmdResetCache |}.

(** [ava debug --tap test.js]. *)
Definition debug_with_tap_flag : invocation :=
  {| inv_load := Loaded sample_conf;
     inv_argv := {[ "pattern" := VArr [VStr "test.js"]; "port" := num_of_Z 9229;
                    "tap" := VBool true ]};
     inv_command := CmdDebug |}.

(** [ava --watch]. *)
Definition watch_run : invocation :=
  {| inv_load := Loaded sample_conf;
     inv_argv := {[ "watch" := VBool true ]};
     inv_command := CmdRun |}.

(** ** Module types, providers, reporter traffic *)

(** The module types for a package whose manifest has [type]. *)
Definition moduleTypes_for (type : value) : value :=
  VObj [("cjs", VStr "commonjs"); ("mjs", VStr "module");
        ("js", match type with VUndefined => VStr "commonjs" | t => t end)].

(** An entry of the [providers] array. *)
Definition provider_entry (name : string) (level main : value) : value :=
  VObj [("level", level); ("main", main); ("type", VStr name)].

(** The calls a run makes on its reporter once it is built. *)
Definition reporter_traffic (e : effect) : bool :=
  match e with
  | ReporterStartRun _ | ReporterEndRun => true
  | _ => false
  end.

(** The codes [process.exit] may be called with once the arguments are
    parsed: 1, or 0 by a [reset-cache] whose configuration loaded and
    whose cache files were deleted. *)
Definition exit_code_allowed (X : externals) (i : invocation) (code : Z) : Prop :=
  code = 1 ∨
  (code = 0 ∧ inv_command i = CmdResetCache ∧
   truthy (confError_of (inv_load i)) = false ∧
   ∃ dir, get (conf_of (inv_load i)) "projectDir" = VStr dir ∧
          del X (cacheDir_of X dir) = None).

(** * Properties *)

(** ** The flag merge *)

Lemma Reflect_has_true (o : obj) k : Reflect_has o k = true ↔ is_Some (o !! k).
Proof.
  unfold Reflect_has. destruct (o !! k); split; intros H; eauto; try done.
Qed.

Lemma merge_flag_eq argv combined flag :
  merge_flag argv combined flag =
    match argv !! flag, merge_target flag with
    | Some v, Some k => <[k := v]> combined
    | _, _ => combined
    end.
Proof.
  unfold merge_flag, merge_target, Reflect_has, get.
  destruct (argv !! flag); simpl; [|done].
  destruct (String.eqb flag "fail-fast"); [done|].
  destruct (String.eqb flag "update-snapshots"); [done|].
  destruct (String.eqb flag "node-arguments"); done.
Qed.

Section Merge.
Context (argv : obj).

Lemma foldl_merge_frame flags (c : obj) k :
  (∀ f, f ∈ flags → merge_target f = Some k → argv !! f = None) →
  foldl (merge_flag argv) c flags !! k = c !! k.
Proof.
  revert c. induction flags as [|f flags IH]; intros c Hf; [done|].
  simpl. rewrite IH.
  - rewrite merge_flag_eq.
    destruct (argv !! f) as [v|] eqn:Hv; [|done].
    destruct (merge_target f) as [t|] eqn:Ht; [|done].
    destruct (decide (t = k)) as [->|Hne]; [|by rewrite lookup_insert_ne].
    specialize (Hf f (list_elem_of_here _ _) Ht). congruence.
  - intros f' Hin. apply Hf. by apply list_elem_of_further.
Qed.

Lemma foldl_merge_hit flags (c : obj) f k v :
  f ∈ flags → merge_target f = Some k → argv !! f = Some v →
  (∀ f', f' ∈ flags → merge_target f' = Some k → f' = f) →
  foldl (merge_flag argv) c flags !! k = Some v.
Proof.
  intros Hin Ht Hv. revert Hin.
  induction flags as [|x flags IH] using rev_ind; intros Hin Huniq.
  - by apply elem_of_nil in Hin.
  - rewrite foldl_snoc, merge_flag_eq.
    destruct (decide (merge_target x = Some k)) as [Hx|Hx].
    + assert (x = f) as ->.
      { apply Huniq; [|done]. apply elem_of_app. right. by apply list_elem_of_singleton. }
      rewrite Hv, Ht. apply lookup_insert_eq.
    + assert (f ∈ flags) as Hin'.
      { apply elem_of_app in Hin as [?|Hl]; [done|].
        apply list_elem_of_singleton in Hl. congruence. }
      assert (foldl (merge_flag argv) c flags !! k = Some v) as IH'.
      { apply IH; [done|]. intros f' ? ?. apply Huniq; [|done].
        apply elem_of_app. by left. }
      destruct (argv !! x); [|done].
      destruct (merge_target x) as [t|]; [|done].
      rewrite lookup_insert_ne; [done|congruence].
Qed.
End Merge.

Lemma FLAG_NAMES_eq :
  FLAG_NAMES = ["concurrency"; "fail-fast"; "match"; "node-arguments"; "serial";
                "tap"; "timeout"; "update-snapshots"; "verbose"; "watch"].
Proof. reflexivity. Qed.

Lemma writer_sound k flag :
  writer k = Some flag → flag ∈ FLAG_NAMES ∧ merge_target flag = Some k.
Proof.
  unfold writer.
  destruct (String.eqb_spec k "failFast") as [->|_];
    [intros [= <-]; split; [compute_done|done]|].
  destruct (String.eqb_spec k "updateSnapshots") as [->|_];
    [intros [= <-]; split; [compute_done|done]|].
  case_bool_decide as Hk; [|done]. intros [= <-].
  repeat (apply elem_of_cons in Hk as [->|Hk]; [split; [compute_done|done]|]).
  by apply elem_of_nil in Hk.
Qed.

Lemma writer_complete k flag :
  flag ∈ FLAG_NAMES → merge_target flag = Some k → writer k = Some flag.
Proof.
  rewrite FLAG_NAMES_eq. intros Hin.
  repeat (apply elem_of_cons in Hin as [->|Hin]; [by intros [= <-]|]).
  by apply elem_of_nil in Hin.
Qed.

(** What [combined] holds under every key. *)
Lemma combine_lookup conf argv k :
  combine conf argv !! k =
    match writer k with
    | Some flag => match argv !! flag with Some v => Some v | None => conf !! k end
    | None => conf !! k
    end.
Proof.
  unfold combine. destruct (writer k) as [flag|] eqn:Hw.
  - apply writer_sound in Hw as Hs. destruct Hs as [Hin Ht].
    destruct (argv !! flag) as [v|] eqn:Hv.
    + apply (foldl_merge_hit argv _ _ flag); try done.
      intros f' Hin' Ht'. apply writer_complete in Ht'; [congruence|done].
    + apply foldl_merge_frame. intros f' Hin' Ht'.
      apply writer_complete in Ht'; [congruence|done].
  - apply foldl_merge_frame. intros f' Hin' Ht'.
    apply writer_complete in Ht'; [congruence|done].
Qed.

Lemma writer_None k : writer k = None ↔ k ∉ merged_fields.
Proof.
  unfold writer, merged_fields.
  destruct (String.eqb_spec k "failFast") as [->|Hff].
  { split; [done|]. intros []. compute_done. }
  destruct (String.eqb_spec k "updateSnapshots") as [->|Hus].
  { split; [done|]. intros []. compute_done. }
  case_bool_decide as Hk.
  - split; [done|]. intros []. set_unfold. tauto.
  - split; [|done]. intros _ Hin. apply Hk. set_unfold. tauto.
Qed.

Lemma canonical_field_target flag :
  flag ≠ "node-arguments" → merge_target flag = Some (canonical_field flag).
Proof.
  unfold merge_target, canonical_field. intros Hna.
  destruct (String.eqb flag "fail-fast"); [done|].
  destruct (String.eqb flag "update-snapshots"); [done|].
  by destruct (String.eqb_spec flag "node-arguments").
Qed.

Lemma combine_node_arguments conf argv :
  combine conf argv = combine conf (delete "node-arguments" argv).
Proof.
  apply map_eq. intros k. rewrite !combine_lookup.
  destruct (writer k) as [flag|] eqn:Hw; [|done].
  apply writer_sound in Hw as [_ Ht].
  rewrite lookup_delete_ne; [done|]. by intros <-.
Qed.

(** C1. Merge precedence.  A recognized flag present in [argv] puts its
    command-line value in [combined] under the flag's canonical field,
    whatever the persisted configuration holds there; a recognized flag
    absent from [argv] leaves the persisted value of its canonical field
    as it was; [fail-fast] and [update-snapshots] land in [failFast] and
    [updateSnapshots] (and nothing is stored under the dashed names);
    [node-arguments] is never written: [combined] is the same with or
    without it on the command line. *)
Theorem merge_precedence (conf argv : obj) :
  (∀ flag v, flag ∈ FLAG_NAMES → flag ≠ "node-arguments" →
     argv !! flag = Some v →
     combine conf argv !! canonical_field flag = Some v) ∧
  (∀ flag, flag ∈ FLAG_NAMES → argv !! flag = None →
     combine conf argv !! canonical_field flag = conf !! canonical_field flag) ∧
  (∀ v, argv !! "fail-fast" = Some v → combine conf argv !! "failFast" = Some v) ∧
  (∀ v, argv !! "update-snapshots" = Some v →
     combine conf argv !! "updateSnapshots" = Some v) ∧
  combine conf argv !! "fail-fast" = conf !! "fail-fast" ∧
  combine conf argv !! "update-snapshots" = conf !! "update-snapshots" ∧
  combine conf argv !! "node-arguments" = conf !! "node-arguments" ∧
  combine conf argv = combine conf (delete "node-arguments" argv).
Proof.
  split_and!.
  - intros flag v Hin Hna Hv. rewrite combine_lookup.
    rewrite (writer_complete _ flag Hin (canonical_field_target _ Hna)).
    by rewrite Hv.
  - intros flag Hin Hv. rewrite combine_lookup.
    destruct (decide (flag = "node-arguments")) as [->|Hna]; [done|].
    rewrite (writer_complete _ flag Hin (canonical_field_target _ Hna)).
    by rewrite Hv.
  - intros v Hv. rewrite combine_lookup. simpl. by rewrite Hv.
  - intros v Hv. rewrite combine_lookup. simpl. by rewrite Hv.
  - by rewrite combine_lookup.
  - by rewrite combine_lookup.
  - by rewrite combine_lookup.
  - apply combine_node_arguments.
Qed.

Lemma merge_precedence_witness :
  combine (<["failFast" := VBool false]> sample_conf)
          {[ "fail-fast" := VBool true; "node-arguments" := VStr "--inspect" ]}
    !! canonical_field "fail-fast" = Some (VBool true) ∧
  combine (<["tap" := VBool true]> sample_conf) {[ "verbose" := VBool true ]}
    !! canonical_field "tap" = Some (VBool true).
Proof.
  split.
  - pose proof (merge_precedence (<["failFast" := VBool false]> sample_conf)
                  {[ "fail-fast" := VBool true; "node-arguments" := VStr "--inspect" ]})
      as (Hpresent & _).
    apply Hpresent; [compute_done|done|reflexivity].
  - pose proof (merge_precedence (<["tap" := VBool true]> sample_conf)
                  {[ "verbose" := VBool true ]}) as (_ & Habsent & _).
    rewrite (Habsent "tap"); [reflexivity|compute_done|reflexivity].
Defined.

(** *** The merge over the store *)

Lemma deref_insert_eq (h : store) r o : deref (<[r := o]> h) r = o.
Proof. unfold deref. by rewrite lookup_insert_eq. Qed.

Lemma deref_insert_ne (h : store) r r' o : r ≠ r' → deref (<[r := o]> h) r' = deref h r'.
Proof. intros. unfold deref. by rewrite lookup_insert_ne. Qed.

Lemma assign_insert (h : store) r o k v :
  assign (<[r := o]> h) r k v = <[r := <[k := v]> o]> h.
Proof. unfold assign. by rewrite deref_insert_eq, insert_insert_eq. Qed.

Lemma merge_flag_store_insert (h : store) argv combined o flag :
  argv ≠ combined →
  merge_flag_store argv combined (<[combined := o]> h) flag =
  <[combined := merge_flag (deref h argv) o flag]> h.
Proof.
  intros Hne. unfold merge_flag_store, merge_flag.
  rewrite deref_insert_ne by done.
  destruct (Reflect_has (deref h argv) flag); [|done].
  destruct (String.eqb flag "fail-fast"); [apply assign_insert|].
  destruct (String.eqb flag "update-snapshots"); [apply assign_insert|].
  destruct (String.eqb flag "node-arguments"); simpl; [done|apply assign_insert].
Qed.

Lemma foldl_merge_flag_store (h : store) argv combined flags o :
  argv ≠ combined →
  foldl (merge_flag_store argv combined) (<[combined := o]> h) flags =
  <[combined := foldl (merge_flag (deref h argv)) o flags]> h.
Proof.
  intros Hne. revert o. induction flags as [|f flags IH]; intros o; [done|].
  simpl. by rewrite merge_flag_store_insert, IH.
Qed.

Lemma fresh_not_live (h : store) r : is_Some (h !! r) → r ≠ fresh (dom h).
Proof.
  intros Hr ->. apply elem_of_dom in Hr. by apply is_fresh in Hr.
Qed.

(** [combine_store] computes [combine] into a fresh object. *)
Lemma combine_store_eq (h : store) conf argv :
  is_Some (h !! argv) →
  combine_store h conf argv =
  (<[fresh (dom h) := combine (deref h conf) (deref h argv)]> h, fresh (dom h)).
Proof.
  intros Hargv. unfold combine_store, spread, alloc, combine.
  by rewrite foldl_merge_flag_store by by apply fresh_not_live.
Qed.

(** C10, as stated, fails on the renamed fields: [failFast] is not one of
    the ten flag names, yet [--fail-fast] replaces its persisted value. *)
Lemma merge_frame_flag_names_counterexample :
  ¬ (∀ (conf argv : obj) k v,
       k ∉ FLAG_NAMES → conf !! k = Some v → combine conf argv !! k = Some v).
Proof.
  intros H.
  specialize (H {[ "failFast" := VBool false ]} {[ "fail-fast" := VBool true ]}
                "failFast" (VBool false)).
  assert (combine {[ "failFast" := VBool false ]} {[ "fail-fast" := VBool true ]}
            !! "failFast" = Some (VBool true)) as Hc by reflexivity.
  rewrite H in Hc; [discriminate|compute_done|reflexivity].
Qed.

(** C10, amended.  The merge leaves every object that exists before it
    untouched, the persisted configuration and [argv] included: it
    writes to a freshly allocated copy only.  Every key outside the nine
    fields the loop can assign ([concurrency], [failFast], [match],
    [serial], [tap], [timeout], [updateSnapshots], [verbose], [watch])
    reads in [combined] exactly as in the persisted configuration,
    whatever the command line holds; this covers the dashed names
    [fail-fast], [update-snapshots] and [node-arguments]. *)
Theorem merge_frame (h : store) (conf argv : ref) :
  is_Some (h !! conf) → is_Some (h !! argv) →
  ∀ h' combined, combine_store h conf argv = (h', combined) →
    h !! combined = None ∧
    (∀ r, is_Some (h !! r) → h' !! r = h !! r) ∧
    h' !! conf = h !! conf ∧
    h' !! argv = h !! argv ∧
    h' !! combined = Some (combine (deref h conf) (deref h argv)) ∧
    (∀ k, k ∉ merged_fields → deref h' combined !! k = deref h conf !! k) ∧
    (∀ (c a : obj) k, k ∉ merged_fields → combine c a !! k = c !! k).
Proof.
  intros Hconf Hargv h' combined. rewrite combine_store_eq by done.
  intros [= <- <-].
  assert (∀ r, is_Some (h !! r) → <[fresh (dom h) := combine (deref h conf) (deref h argv)]> h !! r = h !! r) as Hframe.
  { intros r Hr. rewrite lookup_insert_ne; [done|].
    intros Heq. by apply (fresh_not_live h r). }
  assert (∀ (c a : obj) k, k ∉ merged_fields → combine c a !! k = c !! k) as Hkeys.
  { intros c a k Hk. rewrite combine_lookup.
    by apply writer_None in Hk as ->. }
  split_and!; auto.
  - apply not_elem_of_dom, is_fresh.
  - apply lookup_insert_eq.
  - intros k Hk. rewrite deref_insert_eq. by apply Hkeys.
Qed.

Lemma merge_frame_witness :
  (combine_store sample_store 1 2).1 !! 1%positive = sample_store !! 1%positive ∧
  (combine_store sample_store 1 2).1 !! 2%positive = sample_store !! 2%positive ∧
  deref (combine_store sample_store 1 2).1 (combine_store sample_store 1 2).2
    !! "projectDir" = Some (VStr "/project").
Proof.
  assert (is_Some (sample_store !! 1%positive)) as Hconf by (eexists; reflexivity).
  assert (is_Some (sample_store !! 2%positive)) as Hargv by (eexists; reflexivity).
  pose proof (merge_frame sample_store 1 2 Hconf Hargv
                (combine_store sample_store 1 2).1 (combine_store sample_store 1 2).2
                (surjective_pairing _))
    as (_ & _ & Hc & Ha & _ & Hkeys & _).
  split_and!; [exact Hc|exact Ha|].
  rewrite Hkeys; [reflexivity|].
  intros Hin. vm_compute in Hin. 
  repeat (apply elem_of_cons in Hin as [Hin|Hin]; [discriminate|]).
  by apply elem_of_nil in Hin.
Defined.

(** ** Running an invocation *)

Local Arguments combine : simpl never.

Lemma surface_confError_truthy confError :
  truthy confError = true →
  surface_confError confError =
  ([ConsoleError (diagnostic (confError_text confError))], inr (Exited 1)).
Proof.
  intros Ht. unfold surface_confError, confError_text. rewrite Ht. simpl.
  by destruct (truthy (prop confError "parent")).
Qed.

Lemma surface_confError_falsy confError :
  truthy confError = false → surface_confError confError = ([], inl tt).
Proof. intros Ht. unfold surface_confError. by rewrite Ht. Qed.

(** C3, as stated, fails: with a configuration that does not load,
    [reset-cache] ends with the configuration diagnostic and exit code 1;
    no cache file is deleted and exit code 0 is never reached. *)
Lemma reset_cache_broken_config_counterexample :
  run quiet {| inv_load := LoadFailed (VObj [("message", VStr "Unexpected token")]);
               inv_argv := ∅;
               inv_command := CmdResetCache |}
  = ([SetChalk (VObj [("level", num_of_Z 1)]);
      ConsoleError (diagnostic [Val (VStr "Unexpected token")])],
     inr (Exited 1)).
Proof. reflexivity. Qed.

(** C3, amended.  When loading the persisted configuration fails (the
    value thrown being an error object, hence truthy), the error is
    captured and resolution goes on with an empty configuration
    through argument parsing and the flag merge ([combined] is built from
    the command line alone).  Once parsing has returned, the captured
    error is surfaced for every command, [reset-cache] included: the
    process prints the error's message, followed by the stack of its
    parent cause (or the parent itself) when it has one, and exits with
    code 1 before the update notice, the cache deletion or any other
    step. *)
Theorem config_error_surfaced (X : externals) (error : value) (argv : obj)
    (c : command) :
  truthy error = true →
  conf_of (LoadFailed error) = ∅ ∧
  run X {| inv_load := LoadFailed error; inv_argv := argv; inv_command := c |}
  = ([SetChalk (chalkOptions_of X (combine ∅ argv));
      ConsoleError (diagnostic (confError_text error))],
     inr (Exited 1)) ∧
  (truthy (prop error "parent") = false →
     confError_text error = [Val (prop error "message")]) ∧
  (truthy (prop error "parent") = true →
     confError_text error =
       [Val (prop error "message"); Txt LF; Txt LF;
        Paint Gray [Val (if truthy (prop (prop error "parent") "stack")
                         then prop (prop error "parent") "stack"
                         else prop error "parent")]]).
Proof.
  intros Ht. split_and!.
  - done.
  - unfold run. simpl. by rewrite surface_confError_truthy.
  - intros Hp. unfold confError_text. by rewrite Hp.
  - intros Hp. unfold confError_text, js_or, js_and. by rewrite Hp.
Qed.

Lemma config_error_surfaced_witness :
  run quiet {| inv_load := LoadFailed (VObj [("message", VStr "Unexpected token");
                                             ("parent", VObj [("stack", VStr "at line 3")])]);
               inv_argv := {[ "watch" := VBool true ]};
               inv_command := CmdRun |}
  = ([SetChalk (VObj [("level", num_of_Z 1)]);
      ConsoleError (diagnostic [Val (VStr "Unexpected token"); Txt LF; Txt LF;
                                Paint Gray [Val (VStr "at line 3")]])],
     inr (Exited 1)).
Proof.
  pose proof (config_error_surfaced quiet
               (VObj [("message", VStr "Unexpected token");
                      ("parent", VObj [("stack", VStr "at line 3")])])
               {[ "watch" := VBool true ]} CmdRun eq_refl) as (_ & Hrun & _).
  rewrite Hrun. reflexivity.
Defined.

(** *** Watch mode against debugging and TAP *)

(** C2, as stated, fails when watch comes from the persisted
    configuration only: [ava debug test.js] with [watch: true] persisted
    has both modes enabled, builds the verbose reporter, starts the
    watcher and keeps running. *)
Lemma persisted_watch_with_debug_counterexample :
  truthy (get (combine (conf_of (inv_load debug_with_persisted_watch))
                       (inv_argv debug_with_persisted_watch)) "watch") = true ∧
  inv_command debug_with_persisted_watch = CmdDebug ∧
  ∃ options,
    run quiet debug_with_persisted_watch
    = ([SetChalk (VObj [("level", num_of_Z 1)]); UpdateNotify; NewApi options;
        NewReporter VerboseReporter (Some (VBool true));
        NewWatcher (VArr [VStr "test.js"]); ObserveStdin],
       inr Watching).
Proof. split_and!; [reflexivity|reflexivity|]. eexists. vm_compute. reflexivity. Qed.

(** C2, amended.  Watch requested on the command line and the debug
    command are mutually exclusive: every such invocation ends with exit
    code 1 before any mode-specific side effect (no engine, reporter or
    watcher is built, nothing is run).  When the configuration loaded,
    the watch/TAP check does not fire and the process is not under CI,
    the diagnostic is "Watch mode is not available when debugging.".
    Watch that comes from the persisted configuration alone is not
    checked against debugging. *)
Theorem watch_flag_excludes_debug (X : externals) (i : invocation) :
  truthy (get (inv_argv i) "watch") = true →
  inv_command i = CmdDebug →
  ∃ es,
    run X i = (es, inr (Exited 1)) ∧
    mode_free es = true ∧
    (∀ conf,
       inv_load i = Loaded conf →
       truthy (get (inv_argv i) "tap") && negb (truthy (get conf "tap")) = false →
       isCi X = false →
       es = [SetChalk (chalkOptions_of X (combine conf (inv_argv i))); UpdateNotify;
             ConsoleError (diagnostic [Txt MSG_WATCH_DEBUG])]).
Proof.
  destruct i as [load argv c]. simpl. intros Hwatch ->.
  unfold run. simpl. destruct load as [conf|error]; simpl.
  - unfold validate, check_watch. rewrite Hwatch.
    destruct (truthy (get argv "tap") && negb (truthy (get conf "tap"))) eqn:Htap;
      destruct (isCi X) eqn:Hci; simpl;
      (eexists; split_and!; [reflexivity|reflexivity|]);
      intros conf' [= <-] Htap' Hci'; congruence.
  - destruct (truthy error) eqn:Herror.
    + rewrite surface_confError_truthy by done. simpl.
      eexists; split_and!; [reflexivity|reflexivity|]. by intros conf' [=].
    + rewrite surface_confError_falsy by done. simpl.
      unfold validate, check_watch. rewrite Hwatch.
      destruct (truthy (get argv "tap") && negb (truthy (get ∅ "tap")));
        destruct (isCi X); simpl;
        (eexists; split_and!; [reflexivity|reflexivity|]); by intros conf' [=].
Qed.

Lemma watch_flag_excludes_debug_witness :
  ∃ es, run quiet debug_with_watch_flag = (es, inr (Exited 1)) ∧ mode_free es = true.
Proof.
  destruct (watch_flag_excludes_debug quiet debug_with_watch_flag eq_refl eq_refl)
    as (es & Hrun & Hfree & _).
  exists es. split; assumption.
Defined.

Lemma check_watch_off ci (argv conf : obj) dbg :
  truthy (get argv "watch") = false → check_watch ci argv conf dbg = ([], inl tt).
Proof. intros Hw. unfold check_watch. by rewrite Hw. Qed.

(** C9, as stated, fails when watch comes from the persisted
    configuration: [ava --tap] with [watch: true] persisted requests
    watch mode together with TAP, TAP being an ad-hoc flag only, and no
    validation fails: the mini reporter is built and the watcher
    started. *)
Lemma persisted_watch_with_tap_flag_counterexample :
  truthy (get (combine (conf_of (inv_load tap_with_persisted_watch))
                       (inv_argv tap_with_persisted_watch)) "watch") = true ∧
  truthy (get (inv_argv tap_with_persisted_watch) "tap") = true ∧
  truthy (get (conf_of (inv_load tap_with_persisted_watch)) "tap") = false ∧
  ∃ options,
    run quiet tap_with_persisted_watch
    = ([SetChalk (VObj [("level", num_of_Z 1)]); UpdateNotify; NewApi options;
        NewReporter MiniReporter (Some (VBool true));
        NewWatcher (VArr []); ObserveStdin],
       inr Watching).
Proof.
  split_and!; [reflexivity|reflexivity|reflexivity|].
  eexists. vm_compute. reflexivity.
Qed.

(** C9, amended.  Once validation is reached (the configuration loaded
    and the command is not [reset-cache]): when watch is requested on
    the command line
    together with TAP on the command line and the persisted
    configuration does not enable TAP, the process prints "The TAP
    reporter is not available when using watch mode." and exits with
    code 1, before anything else is validated; when the persisted
    configuration enables TAP the watch checks reduce to the CI and
    debug checks, so the combination is let through; when watch is not
    on the command line (it may still come from the persisted
    configuration) no watch check runs at all. *)
Theorem watch_flag_rejects_adhoc_tap (X : externals) (i : invocation) (conf : obj) :
  inv_load i = Loaded conf →
  inv_command i ≠ CmdResetCache →
  (truthy (get (inv_argv i) "watch") = true →
   truthy (get (inv_argv i) "tap") = true →
   truthy (get conf "tap") = false →
   run X i = ([SetChalk (chalkOptions_of X (combine conf (inv_argv i))); UpdateNotify;
               ConsoleError (diagnostic
                 [Txt "The TAP reporter is not available when using watch mode."])],
              inr (Exited 1))) ∧
  (truthy (get (inv_argv i) "watch") = true →
   truthy (get conf "tap") = true →
   check_watch (isCi X) (inv_argv i) conf (debug_of (inv_command i) (inv_argv i))
   = (when (isCi X) (exit [Txt MSG_WATCH_CI]);;
      when (bool_decide (debug_of (inv_command i) (inv_argv i) ≠ None))
           (exit [Txt MSG_WATCH_DEBUG]))) ∧
  (truthy (get (inv_argv i) "watch") = false →
   check_watch (isCi X) (inv_argv i) conf (debug_of (inv_command i) (inv_argv i))
   = ([], inl tt)).
Proof.
  destruct i as [load argv c]. simpl. intros -> Hc. split_and!.
  - intros Hwatch Htap Hconf. unfold run. simpl.
    destruct c; [| |done]; simpl;
      unfold validate, check_watch; rewrite Hwatch, Htap, Hconf; reflexivity.
  - intros Hwatch Hconf. unfold check_watch.
    rewrite Hwatch, Hconf, andb_false_r. simpl.
    match goal with |- (let '(_, _) := ?m in _) = _ => by destruct m end.
  - apply check_watch_off.
Qed.

Lemma watch_flag_rejects_adhoc_tap_witness :
  run quiet watch_tap_flags
  = ([SetChalk (VObj [("level", num_of_Z 1)]); UpdateNotify;
      ConsoleError (diagnostic
        [Txt "The TAP reporter is not available when using watch mode."])],
     inr (Exited 1)) ∧
  check_watch false (inv_argv watch_tap_flags_with_persisted_tap)
              (<["tap" := VBool true]> sample_conf) None
  = ([], inl tt) ∧
  check_watch false (inv_argv tap_with_persisted_watch)
              (<["watch" := VBool true]> sample_conf) None
  = ([], inl tt).
Proof.
  split_and!.
  - pose proof (watch_flag_rejects_adhoc_tap quiet watch_tap_flags sample_conf
                  eq_refl ltac:(discriminate)) as (Hreject & _ & _).
    exact (Hreject eq_refl eq_refl eq_refl).
  - pose proof (watch_flag_rejects_adhoc_tap quiet watch_tap_flags_with_persisted_tap
                  (<["tap" := VBool true]> sample_conf)
                  eq_refl ltac:(discriminate)) as (_ & Hallowed & _).
    exact (Hallowed eq_refl eq_refl).
  - pose proof (watch_flag_rejects_adhoc_tap quiet tap_with_persisted_watch
                  (<["watch" := VBool true]> sample_conf)
                  eq_refl ltac:(discriminate)) as (_ & _ & Hoff).
    exact (Hoff eq_refl).
Defined.

(** *** The concurrency check *)

Lemma Number_isInteger_denotes v z : Number_isInteger v = Some z ↔ denotes v z.
Proof.
  unfold Number_isInteger, denotes, Qeq. split.
  - destruct v as [| | |[[n d]| |]| | |]; try done. simpl.
    destruct (Z.eqb_spec (n mod Z.pos d) 0) as [Hmod|]; [|done].
    intros [= <-]. eexists; split; [done|]. simpl.
    rewrite Z.mul_1_r, Z.mul_comm. by apply Z.div_exact.
  - intros ([n d] & -> & Hq). simpl in *. rewrite Z.mul_1_r in Hq. subst n.
    rewrite Z.mod_mul by done. simpl. by rewrite Z.div_mul.
Qed.

Lemma bad_concurrency_spec (combined : obj) :
  bad_concurrency combined = true ↔
  ∃ v, combined !! "concurrency" = Some v ∧ negative_or_not_integer v.
Proof.
  unfold bad_concurrency, Reflect_has, get, negative_or_not_integer.
  destruct (combined !! "concurrency") as [v|]; simpl.
  - destruct (Number_isInteger v) as [z|] eqn:Hz.
    + apply Number_isInteger_denotes in Hz as Hd. rewrite Z.ltb_lt. split.
      * intros Hneg. exists v. split; [done|]. right. by exists z.
      * intros (? & [= <-] & [Hnot | (z' & Hd' & Hneg)]); [by destruct (Hnot z)|].
        apply Number_isInteger_denotes in Hd'. congruence.
    + split; [|done]. intros _. exists v. split; [done|]. left.
      intros z Hd. apply Number_isInteger_denotes in Hd. congruence.
  - split; [done|]. by intros (? & [=] & _).
Qed.

Lemma num_of_Z_denotes z : denotes (num_of_Z z) z.
Proof. exists (inject_Z z). split; [done|]. apply Qeq_refl. Qed.

Lemma denotes_inj v z z' : denotes v z → denotes v z' → z = z'.
Proof.
  intros H H'. apply Number_isInteger_denotes in H, H'. congruence.
Qed.

(** C4.  The concurrency check looks at [combined.concurrency] only when
    the key is present.  It rejects exactly the present values that are
    negative or not an integer, by printing the fixed diagnostic about a
    nonnegative integer and exiting with code 1; it lets every
    nonnegative integer through, 0 included, and never fires when the
    key is absent: validation then goes on as if the check were not
    there.  In a run that gets as far as this check (not
    [reset-cache], no configuration error, watch and debug checks
    passed) a rejected value ends the process right there with exit
    code 1. *)
Theorem concurrency_validation (X : externals) (i : invocation) :
  let conf := conf_of (inv_load i) in
  let argv := inv_argv i in
  let dbg := debug_of (inv_command i) argv in
  let combined := combine conf argv in
  (bad_concurrency combined = true ↔
     ∃ v, combined !! "concurrency" = Some v ∧ negative_or_not_integer v) ∧
  (bad_concurrency combined = true →
     check_concurrency combined
     = ([ConsoleError (diagnostic
          [Txt "The --concurrency or -c flag must be provided with a nonnegative integer."])],
        inr (Exited 1))) ∧
  (bad_concurrency combined = false → check_concurrency combined = ([], inl tt)) ∧
  (∀ z, 0 ≤ z → combined !! "concurrency" = Some (num_of_Z z) →
     bad_concurrency combined = false) ∧
  (combined !! "concurrency" = None → bad_concurrency combined = false) ∧
  (bad_concurrency combined = false →
     ∀ experiments,
       validate X argv conf combined dbg experiments
       = (check_watch (isCi X) argv conf dbg;;
          check_debug (isCi X) argv conf combined dbg;;
          warn_experiments combined experiments;;
          check_legacy conf)) ∧
  (∀ es1 es2,
     inv_command i ≠ CmdResetCache →
     truthy (confError_of (inv_load i)) = false →
     check_watch (isCi X) argv conf dbg = (es1, inl tt) →
     check_debug (isCi X) argv conf combined dbg = (es2, inl tt) →
     bad_concurrency combined = true →
     run X i = (SetChalk (chalkOptions_of X combined) :: UpdateNotify :: es1 ++ es2 ++
                [ConsoleError (diagnostic [Txt MSG_CONCURRENCY])],
                inr (Exited 1))).
Proof.
  intros conf argv dbg combined. split_and!.
  - apply bad_concurrency_spec.
  - intros Hbad. unfold check_concurrency. by rewrite Hbad.
  - intros Hok. unfold check_concurrency. by rewrite Hok.
  - intros z Hz Hv. apply not_true_is_false. intros Hbad.
    apply bad_concurrency_spec in Hbad as (v & Hv' & [Hnot | (z' & Hd & Hneg)]);
      rewrite Hv in Hv'; injection Hv' as <-.
    + by destruct (Hnot z (num_of_Z_denotes z)).
    + pose proof (denotes_inj _ _ _ Hd (num_of_Z_denotes z)). lia.
  - intros Hv. apply not_true_is_false. intros Hbad.
    apply bad_concurrency_spec in Hbad as (v & Hv' & _). congruence.
  - intros Hok experiments. unfold validate, check_concurrency. rewrite Hok.
    destruct (check_watch _ _ _ _) as [es1 [[]|e1]]; [|done].
    destruct (check_debug _ _ _ _ _) as [es2 [[]|e2]]; [|done].
    simpl. by destruct (warn_experiments _ _ ≫= _).
  - intros es1 es2 Hc Herr Hw Hd Hbad. unfold run.
    rewrite surface_confError_falsy by done.
    fold conf argv dbg combined.
    replace (resetCache_of (inv_command i)) with false
      by by destruct (inv_command i).
    unfold validate, check_concurrency. rewrite Hw, Hd, Hbad. simpl.
    reflexivity.
Qed.

Lemma concurrency_validation_witness :
  bad_concurrency (combine sample_conf {[ "concurrency" := num_of_Z (-1) ]}) = true ∧
  bad_concurrency (combine sample_conf {[ "concurrency" := num_of_Z 0 ]}) = false ∧
  run quiet concurrency_minus_one
  = ([SetChalk (VObj [("level", num_of_Z 1)]); UpdateNotify;
      ConsoleError (diagnostic [Txt MSG_CONCURRENCY])],
     inr (Exited 1)).
Proof.
  split_and!.
  - reflexivity.
  - pose proof (concurrency_validation quiet
                  {| inv_load := Loaded sample_conf;
                     inv_argv := {[ "concurrency" := num_of_Z 0 ]};
                     inv_command := CmdRun |}) as (_ & _ & _ & Hnonneg & _).
    apply (Hnonneg 0); [lia|reflexivity].
  - pose proof (concurrency_validation quiet concurrency_minus_one)
      as (_ & _ & _ & _ & _ & _ & Hrun).
    apply (Hrun [] []); [discriminate|reflexivity|reflexivity|reflexivity|reflexivity].
Defined.

(** *** Composing validation steps *)

Lemma mode_free_app es es' : mode_free (es ++ es') = mode_free es && mode_free es'.
Proof. apply forallb_app. Qed.

Lemma fatal_exit {A} (message : text) : fatal (exit (A := A) message).
Proof. by eexists. Qed.

Lemma fatal_bind {A B} (m : M A) (k : A → M B) : fatal m → fatal (m ≫= k).
Proof. intros (es & -> & Hes). by exists es. Qed.

Lemma benign_ret : benign (mret tt).
Proof. exists []. split; [done|by left]. Qed.

Lemma benign_when b (m : M unit) : benign m → benign (when b m).
Proof. destruct b; [done|]. intros _. apply benign_ret. Qed.

Lemma fatal_benign (m : M unit) : fatal m → benign m.
Proof. intros (es & -> & Hes). exists es. split; [done|by right]. Qed.


Lemma benign_then_fatal {B} (m : M unit) (k : unit → M B) :
  benign m → fatal (k tt) → fatal (m ≫= k).
Proof.
  intros (es & Hes & [-> | ->]) (es' & Hk & Hes'); simpl.
  - rewrite Hk. exists (es ++ es'). by rewrite mode_free_app, Hes, Hes'.
  - by exists es.
Qed.







(** *** Legacy configuration keys *)







(** *** What a computation can emit *)

Section EmitsOnly.
Context (P : effect → Prop).

Lemma emits_only_ret {A} (a : A) : emits_only P (mret a).
Proof. constructor. Qed.

Lemma emits_only_finish {A} (e : ending) : emits_only P (finish (A := A) e).
Proof. constructor. Qed.

Lemma emits_only_emit e : P e → emits_only P (emit e).
Proof. intros He. by repeat constructor. Qed.

Lemma emits_only_exit {A} message :
  P (ConsoleError (diagnostic message)) → emits_only P (exit (A := A) message).
Proof. intros He. by repeat constructor. Qed.

Lemma emits_only_bind {A B} (m : M A) (k : A → M B) :
  emits_only P m → (∀ a, emits_only P (k a)) → emits_only P (m ≫= k).
Proof.
  unfold emits_only, trace. destruct m as [es [a|e]]; simpl; intros Hm Hk; [|done].
  specialize (Hk a). destruct (k a) as [es' r]. simpl in *.
  by apply Forall_app.
Qed.

Lemma emits_only_when b (m : M unit) : emits_only P m → emits_only P (when b m).
Proof. destruct b; [done|]. intros _. apply emits_only_ret. Qed.

End EmitsOnly.

Ltac emits_steps :=
  repeat first
    [ progress cbv beta
    | apply emits_only_ret
    | apply emits_only_finish
    | apply emits_only_exit
    | apply emits_only_emit
    | apply emits_only_when
    | apply emits_only_bind; [|intros ?]
    | match goal with
      | |- emits_only _ (match ?x with _ => _ end) => destruct x
      end ].

(** *** The reporter an invocation builds *)

Section Reporter.
Context (P : effect → Prop).
Context (HP : ∀ e, (∀ k w, e ≠ NewReporter k w) → P e).

Ltac other_effect := apply HP; intros ? ?; discriminate.

Lemma deliver_emits evts : emits_only P (deliver evts).
Proof.
  induction evts as [|evt evts IH]; cbn [deliver]; [apply emits_only_ret|].
  apply emits_only_bind; [|done].
  unfold on_stateChange, process_exit. emits_steps; other_effect.
Qed.

Lemma observe_runs_emits plans flag : emits_only P (observe_runs plans flag).
Proof.
  revert flag. induction plans as [|p plans IH]; intros flag; cbn [observe_runs];
    [apply emits_only_ret|].
  apply emits_only_bind; [apply emits_only_emit; other_effect|intros _].
  apply emits_only_bind; [apply deliver_emits|intros _]. apply IH.
Qed.

Lemma observe_watch_emits plans : emits_only P (observe_watch plans).
Proof.
  induction plans as [|p plans IH]; cbn [observe_watch]; [apply emits_only_ret|].
  apply emits_only_bind; [|done]. unfold on_run.
  apply emits_only_bind; [apply emits_only_emit; other_effect|intros _].
  apply deliver_emits.
Qed.

Lemma one_shot_emits X options filter : emits_only P (one_shot X options filter).
Proof.
  unfold one_shot.
  apply emits_only_bind; [apply emits_only_emit; other_effect|intros _].
  destruct (api_run X options filter) as [plans result].
  apply emits_only_bind; [apply observe_runs_emits|intros flag].
  unfold throw. emits_steps; other_effect.
Qed.

Lemma watch_emits X options filter : emits_only P (watch X options filter).
Proof.
  unfold watch.
  apply emits_only_bind; [apply emits_only_emit; other_effect|intros _].
  apply emits_only_bind; [apply emits_only_emit; other_effect|intros _].
  apply emits_only_bind; [apply observe_watch_emits|intros _].
  apply emits_only_finish.
Qed.

Lemma validate_emits X argv conf combined dbg exps :
  emits_only P (validate X argv conf combined dbg exps).
Proof.
  unfold validate, check_watch, check_debug, check_concurrency,
    warn_experiments, check_legacy, throw.
  emits_steps; other_effect.
Qed.

Lemma reset_cache_emits X projectDir : emits_only P (reset_cache X projectDir).
Proof.
  unfold reset_cache, throw, process_exit. emits_steps; other_effect.
Qed.

Lemma prepare_emits X (conf : obj) projectDir providers name resolve :
  emits_only P (read_moduleTypes X projectDir) ∧
  emits_only P (add_provider name resolve conf projectDir providers) ∧
  (∀ r, emits_only P (or_exit r)) ∧
  (∀ input, emits_only P (filter_of X projectDir input)).
Proof.
  split_and!; [| |intros r|intros input];
    unfold read_moduleTypes, add_provider, or_exit, filter_of, or_throw, throw;
    emits_steps; other_effect.
Qed.

Lemma new_reporter_emits kind combined :
  P (NewReporter kind (watching_of kind combined)) →
  emits_only P (new_reporter kind combined).
Proof. intros Hkind. destruct kind; by apply emits_only_emit. Qed.

Lemma launch_emits X options filter (combined : obj) :
  emits_only P (if truthy (get combined "watch") then watch X options filter
                else one_shot X options filter).
Proof. destruct (truthy _); [apply watch_emits|apply one_shot_emits]. Qed.

Lemma run_emits X i :
  P (NewReporter
       (select_reporter (isCi X) (stdout_isTTY X)
          (combine (conf_of (inv_load i)) (inv_argv i))
          (debug_of (inv_command i) (inv_argv i)))
       (watching_of
          (select_reporter (isCi X) (stdout_isTTY X)
             (combine (conf_of (inv_load i)) (inv_argv i))
             (debug_of (inv_command i) (inv_argv i)))
          (combine (conf_of (inv_load i)) (inv_argv i)))) →
  emits_only P (run X i).
Proof.
  intros Hkind. unfold run. cbv zeta.
  apply emits_only_bind; [apply emits_only_emit; other_effect|intros _].
  apply emits_only_bind;
    [unfold surface_confError; emits_steps; other_effect|intros _].
  apply emits_only_bind; [apply emits_only_emit; other_effect|intros _].
  destruct (resetCache_of (inv_command i)); [apply reset_cache_emits|].
  apply emits_only_bind; [apply validate_emits|intros _].
  apply emits_only_bind; [apply (prepare_emits X ∅ _ [] "" (provider_babel X))|intros moduleTypes].
  apply emits_only_bind; [apply (prepare_emits X)|intros providers].
  apply emits_only_bind; [apply (prepare_emits X)|intros providers'].
  apply emits_only_bind;
    [apply (prepare_emits X ∅ VNull [] "" (provider_babel X))|intros environmentVariables].
  apply emits_only_bind;
    [apply (prepare_emits X ∅ VNull [] "" (provider_babel X))|intros extensions].
  apply emits_only_bind;
    [apply (prepare_emits X ∅ VNull [] "" (provider_babel X))|intros globs].
  apply emits_only_bind;
    [apply (prepare_emits X ∅ VNull [] "" (provider_babel X))|intros nodeArguments].
  apply emits_only_bind;
    [apply (prepare_emits X ∅ _ [] "" (provider_babel X))|intros filter].
  apply emits_only_bind; [apply emits_only_emit; other_effect|intros _].
  apply emits_only_bind; [by apply new_reporter_emits|intros _].
  apply launch_emits.
Qed.

End Reporter.

Lemma select_reporter_by_priority ci isTTY (combined : obj) dbg :
  select_reporter ci isTTY combined dbg
  = reporter_by_priority (truthy (get combined "tap")) (truthy (get combined "watch"))
      (bool_decide (dbg ≠ None)) (truthy (get combined "verbose")) ci (truthy isTTY).
Proof.
  unfold select_reporter, reporter_by_priority.
  by destruct dbg.
Qed.

Lemma reporter_by_priority_rules (tap watching debugging verbose ci interactive : bool) :
  (tap = true → watching = false → debugging = false →
   reporter_by_priority tap watching debugging verbose ci interactive = TapReporter) ∧
  (¬ (tap = true ∧ watching = false ∧ debugging = false) →
   debugging = true ∨ verbose = true ∨ ci = true ∨ interactive = false →
   reporter_by_priority tap watching debugging verbose ci interactive
   = VerboseReporter) ∧
  (¬ (tap = true ∧ watching = false ∧ debugging = false) →
   debugging = false → verbose = false → ci = false → interactive = true →
   reporter_by_priority tap watching debugging verbose ci interactive
   = MiniReporter).
Proof.
  unfold reporter_by_priority.
  destruct tap, watching, debugging, verbose, ci, interactive; simpl;
    split_and!; intros; try done; try tauto; intuition congruence.
Qed.

Lemma builds_only_self kind watching :
  builds_only kind watching (NewReporter kind watching).
Proof. intros k w Heq. by injection Heq as <- <-. Qed.

Lemma builds_only_other kind watching e :
  (∀ k w, e ≠ NewReporter k w) → builds_only kind watching e.
Proof. intros He k w ->. by destruct (He k w). Qed.

Lemma debugging_false (dbg : option debug_info) :
  bool_decide (dbg ≠ None) = false ↔ dbg = None.
Proof. destruct dbg; split; try done. Qed.

(** C6.  The reporter is a function of the resolved flags, the debug
    descriptor, CI detection and whether standard output is a terminal,
    decided in priority order: TAP requested, not watching and not
    debugging gives the TAP reporter; otherwise debugging, verbose, CI
    or a non-interactive output gives the verbose reporter; otherwise
    the mini reporter.  An invocation builds no reporter but the one so
    selected. *)
Theorem reporter_selection (X : externals) (i : invocation) :
  let combined := combine (conf_of (inv_load i)) (inv_argv i) in
  let dbg := debug_of (inv_command i) (inv_argv i) in
  let tap := truthy (get combined "tap") in
  let watching := truthy (get combined "watch") in
  let verbose := truthy (get combined "verbose") in
  let interactive := truthy (stdout_isTTY X) in
  let kind := select_reporter (isCi X) (stdout_isTTY X) combined dbg in
  kind = reporter_by_priority tap watching (bool_decide (dbg ≠ None)) verbose
           (isCi X) interactive ∧
  (tap = true → watching = false → dbg = None → kind = TapReporter) ∧
  (¬ (tap = true ∧ watching = false ∧ dbg = None) →
   dbg ≠ None ∨ verbose = true ∨ isCi X = true ∨ interactive = false →
   kind = VerboseReporter) ∧
  (¬ (tap = true ∧ watching = false ∧ dbg = None) →
   dbg = None → verbose = false → isCi X = false → interactive = true →
   kind = MiniReporter) ∧
  emits_only (builds_only kind (watching_of kind combined)) (run X i).
Proof.
  intros combined dbg tap watching verbose interactive kind.
  assert (kind = reporter_by_priority tap watching (bool_decide (dbg ≠ None)) verbose
                   (isCi X) interactive) as Hkind
    by apply select_reporter_by_priority.
  destruct (reporter_by_priority_rules tap watching (bool_decide (dbg ≠ None))
              verbose (isCi X) interactive) as (Htap & Hverbose & Hmini).
  split_and!.
  - exact Hkind.
  - intros Ht Hw Hd. rewrite Hkind. apply Htap; [done|done|by apply debugging_false].
  - intros Hnot Hany. rewrite Hkind. apply Hverbose.
    + intros (? & ? & Hd). apply Hnot. split_and!; [done|done|by apply debugging_false].
    + destruct Hany as [Hd|Hany]; [|by right].
      left. destruct (bool_decide (dbg ≠ None)) eqn:E; [done|].
      by apply debugging_false in E.
  - intros Hnot Hd Hv Hci Hi. rewrite Hkind. apply Hmini; try done.
    + intros (? & ? & _). apply Hnot. by split_and!.
    + by apply debugging_false.
  - apply run_emits; [apply builds_only_other|apply builds_only_self].
Qed.

Lemma reporter_selection_witness :
  select_reporter (isCi quiet) (stdout_isTTY quiet)
    (combine (conf_of (inv_load tap_run)) (inv_argv tap_run))
    (debug_of (inv_command tap_run) (inv_argv tap_run)) = TapReporter ∧
  select_reporter (isCi quiet) (stdout_isTTY quiet)
    (combine (conf_of (inv_load debug_with_persisted_watch))
             (inv_argv debug_with_persisted_watch))
    (debug_of (inv_command debug_with_persisted_watch)
              (inv_argv debug_with_persisted_watch)) = VerboseReporter ∧
  select_reporter (isCi quiet) (stdout_isTTY quiet)
    (combine (conf_of (inv_load plain_run)) (inv_argv plain_run))
    (debug_of (inv_command plain_run) (inv_argv plain_run)) = MiniReporter.
Proof.
  split_and!.
  - pose proof (reporter_selection quiet tap_run) as (_ & Htap & _).
    apply Htap; reflexivity.
  - pose proof (reporter_selection quiet debug_with_persisted_watch)
      as (_ & _ & Hverbose & _).
    apply Hverbose; [by intros (_ & [=] & _)|by left].
  - pose proof (reporter_selection quiet plain_run) as (_ & _ & _ & Hmini & _).
    apply Hmini; try reflexivity. by intros ([=] & _).
Defined.

(** *** State changes and interrupts *)

Lemma strict_eq_str_true v lit : strict_eq_str v lit = true ↔ v = VStr lit.
Proof.
  destruct v; simpl; try (split; discriminate).
  destruct (String.eqb_spec s lit) as [->|Hne]; split; try done.
  intros [= ->]. done.
Qed.

Lemma on_stateChange_interrupt evt :
  is_interrupt evt → on_stateChange evt = ([ReporterEndRun], inr (Exited 1)).
Proof.
  intros Hi. apply strict_eq_str_true in Hi. unfold on_stateChange. by rewrite Hi.
Qed.

Lemma on_stateChange_other evt :
  ¬ is_interrupt evt → on_stateChange evt = ([], inl tt).
Proof.
  intros Hi. unfold on_stateChange.
  destruct (strict_eq_str (evt_type evt) "interrupt") eqn:E; [|done].
  by apply strict_eq_str_true in E.
Qed.

Lemma is_interrupt_dec evt : is_interrupt evt ∨ ¬ is_interrupt evt.
Proof.
  unfold is_interrupt.
  destruct (strict_eq_str (evt_type evt) "interrupt") eqn:E.
  - left. by apply strict_eq_str_true.
  - right. intros H. apply strict_eq_str_true in H. congruence.
Qed.

Lemma deliver_calm evts :
  Forall (fun evt => ¬ is_interrupt evt) evts → deliver evts = ([], inl tt).
Proof.
  induction 1 as [|evt evts Hevt _ IH]; [done|].
  cbn [deliver]. by rewrite on_stateChange_other, IH.
Qed.

Lemma deliver_interrupt before evt after :
  Forall (fun evt => ¬ is_interrupt evt) before → is_interrupt evt →
  deliver (before ++ evt :: after) = ([ReporterEndRun], inr (Exited 1)).
Proof.
  intros Hbefore Hevt. induction Hbefore as [|e before He _ IH]; cbn [deliver app].
  - by rewrite on_stateChange_interrupt.
  - by rewrite on_stateChange_other, IH.
Qed.

(** C8.  The listener on a plan's status stream ends the reporter's run
    view and exits with code 1 exactly when the event's type is
    "interrupt"; any other event has no effect and ends nothing.  On a
    stream, the first interrupt ends the process on the spot: later
    events are not looked at, and an in-flight one-shot run is cut short
    without its result being consulted. *)
Theorem interrupt_terminates (evt : event) :
  (is_interrupt evt → on_stateChange evt = ([ReporterEndRun], inr (Exited 1))) ∧
  (¬ is_interrupt evt → on_stateChange evt = ([], inl tt)) ∧
  (is_interrupt evt ↔ ending_of (on_stateChange evt) = Some (Exited 1)) ∧
  (is_interrupt evt ↔ ∃ e, ending_of (on_stateChange evt) = Some e) ∧
  (∀ before after,
     Forall (fun evt => ¬ is_interrupt evt) before → is_interrupt evt →
     deliver (before ++ evt :: after) = ([ReporterEndRun], inr (Exited 1))) ∧
  (∀ X options filter before after p rest result,
     Forall (fun evt => ¬ is_interrupt evt) before → is_interrupt evt →
     plan_status p = before ++ evt :: after →
     api_run X options filter = (p :: rest, result) →
     one_shot X options filter
     = ([ApiRun filter; ReporterStartRun p; ReporterEndRun], inr (Exited 1))) ∧
  (∀ X options filter before after p rest,
     Forall (fun evt => ¬ is_interrupt evt) before → is_interrupt evt →
     plan_status p = before ++ evt :: after →
     watcher_runs X options filter = p :: rest →
     watch X options filter
     = ([NewWatcher filter; ObserveStdin; ReporterStartRun p; ReporterEndRun],
        inr (Exited 1))).
Proof.
  split_and!.
  - apply on_stateChange_interrupt.
  - apply on_stateChange_other.
  - split.
    + intros Hi. by rewrite on_stateChange_interrupt.
    + intros He. destruct (is_interrupt_dec evt) as [|Hn]; [done|].
      by rewrite on_stateChange_other in He.
  - split.
    + intros Hi. rewrite on_stateChange_interrupt by done. by eexists.
    + intros [e He]. destruct (is_interrupt_dec evt) as [|Hn]; [done|].
      by rewrite on_stateChange_other in He.
  - intros before after. apply deliver_interrupt.
  - intros X options filter before after p rest result Hb Hi Hp Hrun.
    unfold one_shot. rewrite Hrun. cbn [observe_runs].
    by rewrite Hp, deliver_interrupt.
  - intros X options filter before after p rest Hb Hi Hp Hruns.
    unfold watch. rewrite Hruns. cbn [observe_watch]. unfold on_run.
    by rewrite Hp, deliver_interrupt.
Qed.

Lemma interrupt_terminates_witness :
  on_stateChange {| evt_type := VStr "interrupt" |} = ([ReporterEndRun], inr (Exited 1)) ∧
  on_stateChange {| evt_type := VStr "end" |} = ([], inl tt) ∧
  one_shot (sample_externals [interrupted_plan] (inl (status_of 0)))
           sample_options (VArr [])
  = ([ApiRun (VArr []); ReporterStartRun interrupted_plan; ReporterEndRun],
     inr (Exited 1)).
Proof.
  split_and!.
  - apply (interrupt_terminates {| evt_type := VStr "interrupt" |}). reflexivity.
  - apply (interrupt_terminates {| evt_type := VStr "end" |}). discriminate.
  - pose proof (interrupt_terminates {| evt_type := VStr "interrupt" |})
      as (_ & _ & _ & _ & _ & Hshot & _).
    apply (Hshot _ sample_options (VArr []) [ {| evt_type := VStr "worker-finished" |} ]
                 [ {| evt_type := VStr "end" |} ] interrupted_plan []
                 (inl (status_of 0))).
    + repeat constructor. discriminate.
    + reflexivity.
    + reflexivity.
    + reflexivity.
Defined.

(** A default project, no flag, an interactive terminal outside CI:
    concurrency 0, timeout "10s", the mini reporter, a one-shot run whose
    exit code is the engine's. *)
Example plain_run_resolves :
  run quiet plain_run
  = ([SetChalk (VObj [("level", num_of_Z 1)]); UpdateNotify; NewApi sample_options;
      NewReporter MiniReporter (Some VUndefined); ApiRun (VArr []);
      SetExitCode (num_of_Z 0); ReporterEndRun],
     inr Returned).
Proof. reflexivity. Qed.

Example interrupted_run_exits :
  run (sample_externals [interrupted_plan] (inl (status_of 0))) plain_run
  = ([SetChalk (VObj [("level", num_of_Z 1)]); UpdateNotify; NewApi sample_options;
      NewReporter MiniReporter (Some VUndefined); ApiRun (VArr []);
      ReporterStartRun interrupted_plan; ReporterEndRun],
     inr (Exited 1)).
Proof. reflexivity. Qed.

(** *** The end of a one-shot run *)

Lemma debug_plan_without_single_file_spec p :
  debug_plan_without_single_file p = true ↔
  truthy (plan_debug p) = true ∧ length (plan_files p) ≠ 1%nat.
Proof.
  unfold debug_plan_without_single_file.
  rewrite andb_true_iff, negb_true_iff, Nat.eqb_neq. done.
Qed.

Lemma observe_runs_uninterrupted plans flag :
  uninterrupted plans →
  observe_runs plans flag
  = (ReporterStartRun <$> plans,
     inl (flag || existsb debug_plan_without_single_file plans)).
Proof.
  intros Hcalm. revert flag.
  induction Hcalm as [|p plans Hp _ IH]; intros flag; cbn [observe_runs].
  - simpl. by rewrite orb_false_r.
  - rewrite (deliver_calm _ Hp), IH. simpl.
    destruct (debug_plan_without_single_file p); simpl; [|done].
    by rewrite orb_true_r.
Qed.

(** C7, as stated, fails on a debug plan that resolved no file: it is not
    a plan "with more than one resolved file", the engine result suggests
    exit code 0, and the run still ends with the instruction message and
    exit code 1. *)
Lemma debug_without_any_file_counterexample :
  truthy (plan_debug (debug_plan [] [])) = true ∧
  ¬ (1 < length (plan_files (debug_plan [] [])))%nat ∧
  suggestExitCode (status_of 0) false = num_of_Z 0 ∧
  ∃ options,
    run (sample_externals [debug_plan [] []] (inl (status_of 0))) debug_no_file
    = ([SetChalk (VObj [("level", num_of_Z 1)]); UpdateNotify; NewApi options;
        NewReporter VerboseReporter (Some VUndefined);
        ApiRun (VArr [VStr "missing.js"]);
        ReporterStartRun (debug_plan [] []);
        ConsoleError (diagnostic
          [Txt "Provide the path to the test file you wish to debug"])],
       inr (Exited 1)).
Proof.
  split_and!; [reflexivity|simpl; lia|reflexivity|].
  eexists. vm_compute. reflexivity.
Qed.

(** C7, amended.  In one-shot mode, once the engine's run has completed
    without an interrupt: if a started plan was a debug plan whose
    number of resolved files is not exactly one (none, or more than
    one), the orchestrator prints "Provide the path to the test file you
    wish to debug" and exits with code 1 without consulting the engine
    result; otherwise it sets the exit code to the result's
    [suggestExitCode], asked with whether any match pattern was
    supplied, and ends the reporter's run view. *)
Theorem debug_needs_single_file (X : externals) (options : api_options)
    (filter : value) (plans : list plan) (runStatus : run_status) :
  api_run X options filter = (plans, inl runStatus) →
  uninterrupted plans →
  (∀ p, debug_plan_without_single_file p = true ↔
        truthy (plan_debug p) = true ∧ length (plan_files p) ≠ 1%nat) ∧
  (existsb debug_plan_without_single_file plans = true →
   one_shot X options filter
   = (ApiRun filter :: (ReporterStartRun <$> plans) ++
      [ConsoleError (diagnostic
         [Txt "Provide the path to the test file you wish to debug"])],
      inr (Exited 1))) ∧
  (existsb debug_plan_without_single_file plans = false →
   one_shot X options filter
   = (ApiRun filter :: (ReporterStartRun <$> plans) ++
      [SetExitCode (suggestExitCode runStatus (0 <? length (match_ options))%nat);
       ReporterEndRun],
      inr Returned)).
Proof.
  intros Hrun Hcalm. split_and!.
  - apply debug_plan_without_single_file_spec.
  - intros Hbad. unfold one_shot.
    rewrite Hrun, observe_runs_uninterrupted by done. simpl. by rewrite Hbad.
  - intros Hok. unfold one_shot.
    rewrite Hrun, observe_runs_uninterrupted by done. simpl. by rewrite Hok.
Qed.

Lemma debug_needs_single_file_witness :
  one_shot (sample_externals [two_files_plan] (inl (status_of 0)))
           sample_options (VArr [VStr "a.js"; VStr "b.js"])
  = ([ApiRun (VArr [VStr "a.js"; VStr "b.js"]); ReporterStartRun two_files_plan;
      ConsoleError (diagnostic
        [Txt "Provide the path to the test file you wish to debug"])],
     inr (Exited 1)) ∧
  one_shot (sample_externals [debug_plan [VStr "/project/a.js"] []] (inl (status_of 3)))
           sample_options (VArr [VStr "a.js"])
  = ([ApiRun (VArr [VStr "a.js"]);
      ReporterStartRun (debug_plan [VStr "/project/a.js"] []);
      SetExitCode (num_of_Z 3); ReporterEndRun],
     inr Returned).
Proof.
  split.
  - pose proof (debug_needs_single_file
                  (sample_externals [two_files_plan] (inl (status_of 0)))
                  sample_options (VArr [VStr "a.js"; VStr "b.js"])
                  [two_files_plan] (status_of 0) eq_refl) as H.
    destruct H as (_ & Hbad & _); [repeat constructor|].
    exact (Hbad eq_refl).
  - pose proof (debug_needs_single_file
                  (sample_externals [debug_plan [VStr "/project/a.js"] []]
                                    (inl (status_of 3)))
                  sample_options (VArr [VStr "a.js"])
                  [debug_plan [VStr "/project/a.js"] []] (status_of 3) eq_refl) as H.
    destruct H as (_ & _ & Hok); [repeat constructor|].
    exact (Hok eq_refl).
Defined.

Example debug_two_files_exits :
  ∃ options,
    run (sample_externals [two_files_plan] (inl (status_of 0))) debug_two_files
    = ([SetChalk (VObj [("level", num_of_Z 1)]); UpdateNotify; NewApi options;
        NewReporter VerboseReporter (Some VUndefined);
        ApiRun (VArr [VStr "a.js"; VStr "b.js"]);
        ReporterStartRun two_files_plan;
        ConsoleError (diagnostic [Txt MSG_DEBUG_FILE])],
       inr (Exited 1)).
Proof. eexists. vm_compute. reflexivity. Qed.

(** * Further properties of [cli.js] *)

(** ** The flag merge, continued *)

Lemma merge_target_canonical flag k :
  merge_target flag = Some k ↔ flag ≠ "node-arguments" ∧ canonical_field flag = k.
Proof.
  unfold merge_target, canonical_field.
  destruct (String.eqb_spec flag "fail-fast") as [->|?];
    [split; [by intros [= <-]|by intros [_ <-]]|].
  destruct (String.eqb_spec flag "update-snapshots") as [->|?];
    [split; [by intros [= <-]|by intros [_ <-]]|].
  destruct (String.eqb_spec flag "node-arguments") as [->|?].
  - split; [done|by intros []].
  - split; [by intros [= <-]|by intros [_ <-]].
Qed.

(** X1.  For one and the same loaded configuration, the merge loop reads
    the parsed command line only at the nine flags it copies: two [argv]
    objects that agree on every recognized flag other than
    [node-arguments] give the same [combined], whatever other entries
    they hold ([pattern], [--], [break], [port], unknown options).
    Which configuration is loaded is decided before the loop and is not
    part of this statement. *)
Theorem combine_depends_on_flags_only (conf argv argv' : obj) :
  (∀ flag, flag ∈ FLAG_NAMES → flag ≠ "node-arguments" →
           argv !! flag = argv' !! flag) →
  combine conf argv = combine conf argv'.
Proof.
  intros Hagree. apply map_eq. intros k. rewrite !combine_lookup.
  destruct (writer k) as [flag|] eqn:Hw; [|done].
  apply writer_sound in Hw as [Hin Ht].
  apply merge_target_canonical in Ht as [Hna _].
  by rewrite (Hagree flag Hin Hna).
Qed.

Lemma combine_depends_on_flags_only_witness :
  combine sample_conf {[ "tap" := VBool true; "pattern" := VArr [VStr "a.js"];
                         "port" := num_of_Z 9229 ]}
  = combine sample_conf {[ "tap" := VBool true ]}.
Proof.
  apply combine_depends_on_flags_only. intros flag Hin Hna.
  rewrite FLAG_NAMES_eq in Hin.
  repeat (apply elem_of_cons in Hin as [->|Hin]; [reflexivity || done|]).
  by apply elem_of_nil in Hin.
Defined.

(** X2.  Merging one command line and then another is merging their
    union in which the later command line wins; so merging the same
    command line twice changes nothing, and a command line without flags
    gives back the persisted configuration. *)
Theorem combine_twice (conf argv1 argv2 : obj) :
  combine (combine conf argv1) argv2 = combine conf (argv2 ∪ argv1) ∧
  combine (combine conf argv1) argv1 = combine conf argv1 ∧
  combine conf ∅ = conf.
Proof.
  assert (∀ a1 a2 : obj, combine (combine conf a1) a2 = combine conf (a2 ∪ a1)) as H.
  { intros a1 a2. apply map_eq. intros k. rewrite !combine_lookup.
    destruct (writer k) as [flag|]; [|done].
    rewrite lookup_union. by destruct (a2 !! flag), (a1 !! flag). }
  split_and!.
  - apply H.
  - rewrite H. by rewrite map_union_idemp.
  - apply map_eq. intros k. rewrite combine_lookup.
    destruct (writer k); by rewrite ?lookup_empty.
Qed.

(** X3.  The merge never removes a key: [combined] has a key exactly
    when the persisted configuration has it or it is the canonical field
    of a recognized flag, other than [node-arguments], present on the
    command line. *)
Theorem combine_keys (conf argv : obj) (k : string) :
  is_Some (combine conf argv !! k) ↔
  is_Some (conf !! k) ∨
  ∃ flag, flag ∈ FLAG_NAMES ∧ flag ≠ "node-arguments" ∧
          canonical_field flag = k ∧ is_Some (argv !! flag).
Proof.
  rewrite combine_lookup. destruct (writer k) as [flag|] eqn:Hw.
  - apply writer_sound in Hw as [Hin Ht].
    apply merge_target_canonical in Ht as [Hna Hk].
    destruct (argv !! flag) as [v|] eqn:Hv.
    + split; [|by eauto]. intros _. right. exists flag. rewrite Hv. by eauto.
    + split; [by left|]. intros [?|(flag' & Hin' & Hna' & Hk' & Hv')]; [done|].
      assert (writer k = Some flag') as Hw'.
      { apply writer_complete; [done|]. by apply merge_target_canonical. }
      assert (writer k = Some flag) as Hw''.
      { apply writer_complete; [done|]. by apply merge_target_canonical. }
      rewrite Hw' in Hw''. injection Hw'' as ->. rewrite Hv in Hv'. by destruct Hv'.
  - split; [by left|]. intros [?|(flag & Hin & Hna & Hk & _)]; [done|].
    rewrite (writer_complete k flag) in Hw; [done|done|].
    by apply merge_target_canonical.
Qed.

(** ** Match patterns *)

(** X4.  The match patterns handed to the engine: an empty [--match]
    resets whatever patterns the configuration persists to none, an
    absent [--match] keeps the persisted ones, a repeated [--match]
    (an array) replaces them with exactly the given patterns, and a
    single pattern gives a one-element list. *)
Theorem match_patterns (conf argv : obj) :
  (argv !! "match" = Some (VStr "") → match_of (combine conf argv) = []) ∧
  (argv !! "match" = None → match_of (combine conf argv) = match_of conf) ∧
  (∀ items, argv !! "match" = Some (VArr items) →
            match_of (combine conf argv) = items) ∧
  (∀ s, s ≠ "" → argv !! "match" = Some (VStr s) →
        match_of (combine conf argv) = [VStr s]) ∧
  (conf !! "match" = None → match_of conf = []).
Proof.
  assert (∀ v, argv !! "match" = Some v → get (combine conf argv) "match" = v) as Hset.
  { intros v Hv. unfold get. rewrite combine_lookup. simpl. by rewrite Hv. }
  split_and!.
  - intros Hv. unfold match_of. by rewrite (Hset _ Hv).
  - intros Hv. unfold match_of, get. rewrite combine_lookup. simpl. by rewrite Hv.
  - intros items Hv. unfold match_of. by rewrite (Hset _ Hv).
  - intros s Hs Hv. unfold match_of. rewrite (Hset _ Hv). simpl.
    by destruct (String.eqb_spec s "").
  - intros Hv. unfold match_of, get. by rewrite Hv.
Qed.

Lemma match_patterns_witness :
  match_of (combine conf_with_patterns {[ "match" := VStr "" ]}) = [] ∧
  match_of (combine conf_with_patterns {[ "serial" := VBool true ]})
  = [VStr "unit*"; VStr "smoke*"] ∧
  match_of (combine conf_with_patterns {[ "match" := VStr "api*" ]}) = [VStr "api*"].
Proof.
  split_and!.
  - pose proof (match_patterns conf_with_patterns {[ "match" := VStr "" ]})
      as (Hreset & _).
    apply Hreset. reflexivity.
  - pose proof (match_patterns conf_with_patterns {[ "serial" := VBool true ]})
      as (_ & Habsent & _).
    rewrite Habsent; reflexivity.
  - pose proof (match_patterns conf_with_patterns {[ "match" := VStr "api*" ]})
      as (_ & _ & _ & Hone & _).
    apply Hone; [discriminate|reflexivity].
Defined.

(** ** Repeated flags *)

(** X5.  A flag given several times keeps its last value: on an array
    [coerceLastValue] returns the last element ([undefined] for an empty
    array), and it returns anything that is not an array unchanged, so
    applying it again to a value that is not an array changes nothing. *)
Theorem coerceLastValue_last (v : value) :
  (∀ items x, v = VArr (items ++ [x]) → coerceLastValue v = x) ∧
  (v = VArr [] → coerceLastValue v = VUndefined) ∧
  ((∀ items, v ≠ VArr items) → coerceLastValue v = v) ∧
  ((∀ items, coerceLastValue v ≠ VArr items) →
   coerceLastValue (coerceLastValue v) = coerceLastValue v).
Proof.
  split_and!.
  - intros items x ->. simpl. apply last_last.
  - by intros ->.
  - intros Hv. destruct v; try done. by destruct (Hv items).
  - intros Hv. destruct (coerceLastValue v) eqn:E; try done. by destruct (Hv items).
Qed.

Lemma coerceLastValue_last_witness :
  coerceLastValue (VArr [num_of_Z 2; num_of_Z 4]) = num_of_Z 4 ∧
  coerceLastValue (VStr "10s") = VStr "10s".
Proof.
  split.
  - pose proof (coerceLastValue_last (VArr [num_of_Z 2; num_of_Z 4])) as (Hlast & _).
    apply (Hlast [num_of_Z 2]). reflexivity.
  - pose proof (coerceLastValue_last (VStr "10s")) as (_ & _ & Hother & _).
    apply Hother. discriminate.
Defined.

(** ** Validation as a whole *)

Lemma validate_by_cases (X : externals) (argv conf combined : obj)
    (dbg : option debug_info) (experiments : value) :
  (validation_passes (isCi X) argv conf combined dbg experiments = true →
   validate X argv conf combined dbg experiments
   = (validation_notices combined dbg experiments, inl tt)) ∧
  (validation_passes (isCi X) argv conf combined dbg experiments = false →
   ∃ es e, validate X argv conf combined dbg experiments = (es, inr e) ∧
           mode_free es = true ∧ (e = Exited 1 ∨ e = Thrown TypeError)).
Proof.
  unfold validation_passes, validation_notices, validate, check_watch, check_debug,
    check_concurrency, warn_experiments, check_legacy, first_legacy, adhoc_tap,
    timeout_notice, experiments_notice.
  simpl.
  destruct (truthy (get argv "watch")), (truthy (get argv "tap")),
    (truthy (get conf "tap")), (isCi X), dbg as [d|]; simpl;
    try (split; [done|intros _; by eauto 10]);
    destruct (bad_concurrency combined); simpl;
    try (split; [done|intros _; by eauto 10]);
    destruct (truthy (get combined "timeout")), (truthy (get combined "tap")); simpl;
    try (destruct (Object_keys_length experiments) as [[|n]|]; simpl);
    try (split; [done|intros _; by eauto 10]);
    destruct (Reflect_has conf "compileEnhancements"); simpl;
    try (split; [done|intros _; by eauto 10]);
    destruct (Reflect_has conf "helpers"); simpl;
    try (split; [done|intros _; by eauto 10]);
    destruct (Reflect_has conf "sources"); simpl;
    try (split; [done|intros _; by eauto 10]);
    (split; [intros _; reflexivity|done]).
Qed.

(** X6.  The checks between the cache reset and the preparation steps
    let an invocation through exactly when: the watch flag, if given,
    comes without ad-hoc TAP, outside CI and without the debug command;
    the debug command, if given, comes without ad-hoc TAP and outside
    CI; [concurrency] is absent or a nonnegative integer; the
    experiments can be enumerated unless TAP is on; and no legacy key is
    persisted.  A passing validation prints nothing but the timeout
    notice (debugging with a timeout set) and the experiments warning
    (experiments enabled, TAP off), in that order; a failing one ends
    the process with exit code 1, or with a [TypeError] when the
    experiments are missing, and never continues. *)
Theorem validation_outcome (X : externals) (argv conf combined : obj)
    (dbg : option debug_info) (experiments : value) :
  (validation_passes (isCi X) argv conf combined dbg experiments = true →
   validate X argv conf combined dbg experiments
   = (validation_notices combined dbg experiments, inl tt)) ∧
  (validation_passes (isCi X) argv conf combined dbg experiments = false →
   ∃ es e, validate X argv conf combined dbg experiments = (es, inr e) ∧
           mode_free es = true ∧ (e = Exited 1 ∨ e = Thrown TypeError)).
Proof. apply validate_by_cases. Qed.

Lemma validation_outcome_witness :
  validate quiet (inv_argv debug_with_timeout) (conf_of (inv_load debug_with_timeout))
    (combine (conf_of (inv_load debug_with_timeout)) (inv_argv debug_with_timeout))
    (debug_of CmdDebug (inv_argv debug_with_timeout))
    (VObj [("tryAssertion", VBool true)])
  = ([timeout_notice; experiments_notice], inl tt) ∧
  ∃ es e,
    validate quiet ∅ (<["sources" := VArr []]> sample_conf)
      (<["sources" := VArr []]> sample_conf) None (VObj [])
    = (es, inr e) ∧ mode_free es = true ∧ (e = Exited 1 ∨ e = Thrown TypeError).
Proof.
  split.
  - pose proof (validation_outcome quiet (inv_argv debug_with_timeout)
                  (conf_of (inv_load debug_with_timeout))
                  (combine (conf_of (inv_load debug_with_timeout))
                           (inv_argv debug_with_timeout))
                  (debug_of CmdDebug (inv_argv debug_with_timeout))
                  (VObj [("tryAssertion", VBool true)])) as (Hpass & _).
    exact (Hpass eq_refl).
  - pose proof (validation_outcome quiet ∅ (<["sources" := VArr []]> sample_conf)
                  (<["sources" := VArr []]> sample_conf) None (VObj [])) as (_ & Hfail).
    exact (Hfail eq_refl).
Defined.

(** ** Invariants of a whole invocation *)

Lemma obeys_ret {A} P Q (a : A) : obeys P Q (mret a).
Proof. split; [constructor|done]. Qed.

Lemma obeys_emit P Q e : P e → obeys P Q (emit e).
Proof. intros He. split; [by repeat constructor|done]. Qed.

Lemma obeys_finish {A} P Q (e : ending) : Q e → obeys P Q (finish (A := A) e).
Proof. intros He. split; [constructor|]. by intros e' [= <-]. Qed.

Lemma obeys_exit {A} P Q message :
  P (ConsoleError (diagnostic message)) → Q (Exited 1) →
  obeys P Q (exit (A := A) message).
Proof. intros He Hq. split; [by repeat constructor|]. by intros e' [= <-]. Qed.

Lemma obeys_bind {A B} P Q (m : M A) (k : A → M B) :
  obeys P Q m → (∀ es a, m = (es, inl a) → obeys P Q (k a)) → obeys P Q (m ≫= k).
Proof.
  unfold obeys, trace. destruct m as [es [a|e]]; simpl; intros [Hm Hq] Hk.
  - destruct (Hk es a eq_refl) as [Hk1 Hk2]. destruct (k a) as [es' r]. simpl in *.
    split; [by apply Forall_app|done].
  - split; [done|]. intros e0 [= <-]. by apply Hq.
Qed.

Lemma obeys_when P Q b (m : M unit) : obeys P Q m → obeys P Q (when b m).
Proof. destruct b; [done|]. intros _. apply obeys_ret. Qed.

Ltac obeys_steps :=
  repeat first
    [ progress cbv beta
    | apply obeys_ret
    | apply obeys_finish
    | apply obeys_exit
    | apply obeys_emit
    | apply obeys_when
    | apply obeys_bind; [|intros ? ? _]
    | match goal with
      | |- obeys _ _ (match ?x with _ => _ end) => destruct x
      end ].

Section Obeys.
Context (P : effect → Prop) (Q : ending → Prop).
Context (HP : ∀ e, ordinary e = true → P e).
Context (HQ1 : Q (Exited 1)) (HQt : ∀ v, Q (Thrown v)).

Ltac leaf := first [ apply HP; reflexivity | apply HQ1 | apply HQt ].

Lemma deliver_obeys evts : obeys P Q (deliver evts).
Proof.
  induction evts as [|evt evts IH]; cbn [deliver]; [apply obeys_ret|].
  apply obeys_bind; [|done].
  unfold on_stateChange, process_exit. obeys_steps; leaf.
Qed.

Lemma observe_runs_obeys plans flag : obeys P Q (observe_runs plans flag).
Proof.
  revert flag. induction plans as [|p plans IH]; intros flag; cbn [observe_runs];
    [apply obeys_ret|].
  apply obeys_bind; [apply obeys_emit; leaf|intros _ _ _].
  apply obeys_bind; [apply deliver_obeys|intros _ _ _]. apply IH.
Qed.

Lemma observe_watch_obeys plans : obeys P Q (observe_watch plans).
Proof.
  induction plans as [|p plans IH]; cbn [observe_watch]; [apply obeys_ret|].
  apply obeys_bind; [|done]. unfold on_run.
  apply obeys_bind; [apply obeys_emit; leaf|intros _ _ _].
  apply deliver_obeys.
Qed.

Lemma one_shot_obeys X options filter :
  Q Returned → obeys P Q (one_shot X options filter).
Proof.
  intros HQr. unfold one_shot.
  apply obeys_bind; [apply obeys_emit; leaf|intros _ _ _].
  destruct (api_run X options filter) as [plans result].
  apply obeys_bind; [apply observe_runs_obeys|intros _ flag _].
  unfold throw. obeys_steps; first [leaf | exact HQr].
Qed.

Lemma watch_obeys X options filter :
  Q Watching → obeys P Q (watch X options filter).
Proof.
  intros HQw. unfold watch.
  apply obeys_bind; [apply obeys_emit; leaf|intros _ _ _].
  apply obeys_bind; [apply obeys_emit; leaf|intros _ _ _].
  apply obeys_bind; [apply observe_watch_obeys|intros _ _ _].
  by apply obeys_finish.
Qed.

Lemma surface_confError_obeys confError : obeys P Q (surface_confError confError).
Proof. unfold surface_confError. obeys_steps; leaf. Qed.

Lemma validate_obeys X argv conf combined dbg exps :
  obeys P Q (validate X argv conf combined dbg exps).
Proof.
  unfold validate, check_watch, check_debug, check_concurrency,
    warn_experiments, check_legacy, throw.
  obeys_steps; leaf.
Qed.

Lemma reset_cache_obeys X projectDir :
  (∀ dir, projectDir = VStr dir → del X (cacheDir_of X dir) = None → Q (Exited 0)) →
  obeys P Q (reset_cache X projectDir).
Proof.
  intros HQ0. unfold reset_cache, throw, process_exit.
  destruct projectDir as [| | | |dir| |]; try (apply obeys_finish; leaf).
  apply obeys_bind; [apply obeys_emit; leaf|intros _ _ _].
  fold (cacheDir_of X dir).
  destruct (del X (cacheDir_of X dir)) eqn:Hdel.
  - apply obeys_exit; leaf.
  - apply obeys_bind; [apply obeys_emit; leaf|intros _ _ _].
    apply obeys_finish. by apply (HQ0 dir).
Qed.

Lemma read_moduleTypes_obeys X projectDir : obeys P Q (read_moduleTypes X projectDir).
Proof. unfold read_moduleTypes, throw. obeys_steps; leaf. Qed.

Lemma add_provider_obeys name resolve (conf : obj) projectDir providers :
  obeys P Q (add_provider name resolve conf projectDir providers).
Proof. unfold add_provider. obeys_steps; leaf. Qed.

Lemma or_exit_obeys r : obeys P Q (or_exit r).
Proof. unfold or_exit. obeys_steps; leaf. Qed.

Lemma filter_of_obeys X projectDir input : obeys P Q (filter_of X projectDir input).
Proof. unfold filter_of, or_throw, throw. obeys_steps; leaf. Qed.

Lemma new_reporter_obeys kind combined :
  P (NewReporter kind (watching_of kind combined)) →
  obeys P Q (new_reporter kind combined).
Proof. intros Hkind. destruct kind; by apply obeys_emit. Qed.

End Obeys.

Lemma surface_confError_inl confError es a :
  surface_confError confError = (es, inl a) → truthy confError = false.
Proof.
  destruct (truthy confError) eqn:Ht; [|done].
  by rewrite surface_confError_truthy.
Qed.

Lemma validate_inl X argv conf combined dbg exps es a :
  validate X argv conf combined dbg exps = (es, inl a) →
  validation_passes (isCi X) argv conf combined dbg exps = true ∧
  es = validation_notices combined dbg exps.
Proof.
  intros Hv.
  destruct (validate_by_cases X argv conf combined dbg exps) as [Hpass Hfail].
  destruct (validation_passes _ _ _ _ _ _).
  - rewrite Hpass in Hv by done. by injection Hv as <- _.
  - destruct (Hfail eq_refl) as (es' & e & He & _). congruence.
Qed.

Lemma or_exit_inl r es v : or_exit r = (es, inl v) → r = inl v.
Proof. destruct r; simpl; [by intros [= _ ->]|done]. Qed.

Lemma resolve_providers_inl X (conf : obj) projectDir es1 es2 ps ps' :
  add_provider "babel" (provider_babel X) conf projectDir [] = (es1, inl ps) →
  add_provider "typescript" (provider_typescript X) conf projectDir ps = (es2, inl ps') →
  resolve_providers X conf projectDir = (es1 ++ es2, inl ps').
Proof. intros H1 H2. unfold resolve_providers. rewrite H1. simpl. by rewrite H2. Qed.

Section RunObeys.
Context (P : effect → Prop) (Q : ending → Prop) (X : externals) (i : invocation).
Context (HP : ∀ e, ordinary e = true → P e).
Context (Hchalk : P (SetChalk (chalkOptions_of X (combined_of i)))).
Context (Hapi : ∀ o, built_from X i o → P (NewApi o)).
Context (Hreporter :
  P (NewReporter (selected_reporter X i)
       (watching_of (selected_reporter X i) (combined_of i)))).
Context (HQ1 : Q (Exited 1)) (HQt : ∀ v, Q (Thrown v)).
Context (HQ0 : ∀ dir,
  resetCache_of (inv_command i) = true →
  truthy (confError_of (inv_load i)) = false →
  get (conf_of (inv_load i)) "projectDir" = VStr dir →
  del X (cacheDir_of X dir) = None →
  Q (Exited 0)).
Context (HQr :
  resetCache_of (inv_command i) = false →
  truthy (get (combined_of i) "watch") = false → Q Returned).
Context (HQw :
  resetCache_of (inv_command i) = false →
  truthy (get (combined_of i) "watch") = true → Q Watching).

Lemma run_obeys : obeys P Q (run X i).
Proof.
  unfold run. cbv zeta.
  apply obeys_bind; [apply obeys_emit; exact Hchalk|intros _ _ _].
  apply obeys_bind; [apply surface_confError_obeys; assumption|intros es0 [] Hloaded].
  apply surface_confError_inl in Hloaded.
  apply obeys_bind; [apply obeys_emit, HP; reflexivity|intros _ _ _].
  destruct (resetCache_of (inv_command i)) eqn:Hreset.
  { apply reset_cache_obeys; try assumption. intros dir Hdir Hdel.
    exact (HQ0 dir eq_refl Hloaded Hdir Hdel). }
  apply obeys_bind; [apply validate_obeys; assumption|intros notices [] Hvalid].
  apply validate_inl in Hvalid as [Hvalid _].
  apply obeys_bind; [apply read_moduleTypes_obeys; assumption|intros es1 mt Hmt].
  apply obeys_bind; [apply add_provider_obeys; assumption|intros es2 ps Hp1].
  apply obeys_bind; [apply add_provider_obeys; assumption|intros es3 ps' Hp2].
  apply obeys_bind; [apply or_exit_obeys; assumption|intros es4 env Henv].
  apply obeys_bind; [apply or_exit_obeys; assumption|intros es5 ext Hext].
  apply obeys_bind; [apply or_exit_obeys; assumption|intros es6 gl Hglobs].
  apply obeys_bind; [apply or_exit_obeys; assumption|intros es7 na Hnode].
  apply obeys_bind; [apply filter_of_obeys; assumption|intros es8 filter _].
  apply or_exit_inl in Henv, Hext, Hglobs, Hnode.
  apply obeys_bind.
  { apply obeys_emit, Hapi.
    constructor;
      cbn [moduleTypes providers environmentVariables extensions
           globs nodeArguments concurrency timeout match_ debug
           parallelRuns cacheEnabled failWithoutAssertions require
           snapshotDir chalkOptions failFast serial updateSnapshots
           experiments projectDir workerArgv ranFromCli];
      [ exact Hloaded | exact Hreset | exact Hvalid
      | exists es1; exact Hmt
      | exists (es2 ++ es3); exact (resolve_providers_inl _ _ _ _ _ _ _ Hp1 Hp2)
      | exact Henv | exact Hext | exact Hglobs | exact Hnode
      | reflexivity .. ]. }
  intros _ _ _.
  apply obeys_bind.
  { apply new_reporter_obeys. exact Hreporter. }
  intros _ _ _.
  destruct (truthy (get (combine (conf_of (inv_load i)) (inv_argv i)) "watch")) eqn:Hwatch.
  - apply watch_obeys; try assumption. exact (HQw eq_refl eq_refl).
  - apply one_shot_obeys; try assumption. exact (HQr eq_refl eq_refl).
Qed.

End RunObeys.

(** *** The engine is built from a validated configuration *)

Lemma NewApi_built_from X i o : NewApi o ∈ trace (run X i) → built_from X i o.
Proof.
  intros Hin.
  assert (obeys (fun e => ∀ o, e = NewApi o → built_from X i o) (fun _ => True)
                (run X i)) as [Hall _].
  { apply run_obeys; try done.
    - intros e He o' ->. discriminate He.
    - by intros o0 Hb o' [= <-]. }
  rewrite Forall_forall in Hall. by apply (Hall _ Hin).
Qed.

Lemma get_combine_persisted (conf argv : obj) k :
  k ∉ merged_fields → get (combine conf argv) k = get conf k.
Proof.
  intros Hk. unfold get. rewrite combine_lookup.
  by apply writer_None in Hk as ->.
Qed.

Lemma validation_passes_concurrency ci (argv conf combined : obj) dbg exps :
  validation_passes ci argv conf combined dbg exps = true →
  bad_concurrency combined = false ∧ first_legacy conf = None.
Proof.
  unfold validation_passes. rewrite !andb_true_iff, negb_true_iff.
  intros [[[_ Hc] _] Hl]. split; [done|]. by destruct (first_legacy conf).
Qed.

Lemma js_or_concurrency (combined : obj) :
  bad_concurrency combined = false →
  ∃ z, 0 ≤ z ∧ denotes (js_or (get combined "concurrency") (num_of_Z 0)) z.
Proof.
  unfold bad_concurrency, Reflect_has, get, js_or.
  destruct (combined !! "concurrency") as [v|]; simpl.
  - destruct (Number_isInteger v) as [z|] eqn:Hz; [|done].
    intros Hneg%Z.ltb_ge. apply Number_isInteger_denotes in Hz.
    destruct (truthy v); [by exists z|].
    exists 0. split; [done|apply num_of_Z_denotes].
  - intros _. exists 0. split; [done|apply num_of_Z_denotes].
Qed.

(** X7.  The engine is only ever built from a resolved invocation: if a
    run constructs it, the configuration loaded, the command is not
    [reset-cache], validation passed, every preparation step returned
    without throwing, and each option handed over is what that step
    returned or what the merged configuration holds. *)
Theorem engine_built_after_validation (X : externals) (i : invocation)
    (o : api_options) :
  NewApi o ∈ trace (run X i) → built_from X i o.
Proof.
  intros Hin.
  assert (obeys (fun e => ∀ o, e = NewApi o → built_from X i o) (fun _ => True)
                (run X i)) as [Hall _].
  { apply run_obeys; try done.
    - intros e He o' ->. discriminate He.
    - by intros o0 Hb o' [= <-]. }
  rewrite Forall_forall in Hall. by apply (Hall _ Hin).
Qed.

Lemma engine_built_after_validation_witness : built_from quiet plain_run sample_options.
Proof.
  apply engine_built_after_validation.
  apply list_elem_of_In. vm_compute. right. right. left. reflexivity.
Defined.

(** X8.  Whatever the inputs, the engine never receives a concurrency
    that is not a nonnegative integer (an absent or zero value becomes
    0), never receives a falsy timeout (an absent or empty one becomes
    "10s"), and is never built for a configuration that still has a
    legacy key. *)
Theorem engine_options_sound (X : externals) (i : invocation) (o : api_options) :
  NewApi o ∈ trace (run X i) →
  (∃ z, 0 ≤ z ∧ denotes (concurrency o) z) ∧
  truthy (timeout o) = true ∧
  (truthy (get (combined_of i) "timeout") = false → timeout o = VStr "10s") ∧
  (combined_of i !! "concurrency" = None → concurrency o = num_of_Z 0) ∧
  first_legacy (conf_of (inv_load i)) = None.
Proof.
  intros Hin. apply NewApi_built_from in Hin as Hb.
  destruct (validation_passes_concurrency _ _ _ _ _ _ (bf_validated _ _ _ Hb))
    as [Hc Hl].
  rewrite (bf_concurrency _ _ _ Hb), (bf_timeout _ _ _ Hb).
  split_and!.
  - by apply js_or_concurrency.
  - unfold js_or. by destruct (truthy (get (combined_of i) "timeout")) eqn:E.
  - intros Ht. unfold js_or. by rewrite Ht.
  - intros Hnone. unfold js_or, get. by rewrite Hnone.
  - done.
Qed.

Lemma engine_options_sound_witness :
  ∃ z, 0 ≤ z ∧ denotes (concurrency sample_options) z.
Proof.
  assert (NewApi sample_options ∈ trace (run quiet plain_run)) as Hin.
  { apply list_elem_of_In. vm_compute. right. right. left. reflexivity. }
  destruct (engine_options_sound quiet plain_run sample_options Hin) as [Hc _].
  exact Hc.
Defined.

(** X9.  Entries the command line has no flag for are taken from the
    loaded configuration alone: the merge never copies an [argv] entry
    named [cache], [failWithoutAssertions], [require] or [snapshotDir],
    so the engine's cache switch, [failWithoutAssertions], [require]
    list and snapshot directory are computed from the loaded
    configuration, whatever such entries [argv] holds. *)
Theorem persisted_only_options (X : externals) (i : invocation) :
  (∀ k, k ∈ persisted_only →
        get (combined_of i) k = get (conf_of (inv_load i)) k) ∧
  (∀ o, NewApi o ∈ trace (run X i) →
     cacheEnabled o
     = negb (strict_eq_bool (get (conf_of (inv_load i)) "cache") false) ∧
     failWithoutAssertions o
     = negb (strict_eq_bool (get (conf_of (inv_load i)) "failWithoutAssertions") false) ∧
     require o = arrify (get (conf_of (inv_load i)) "require") ∧
     snapshotDir o
     = if truthy (get (conf_of (inv_load i)) "snapshotDir")
       then path_resolve X (get (conf_of (inv_load i)) "projectDir")
                         (get (conf_of (inv_load i)) "snapshotDir")
       else VNull).
Proof.
  assert (∀ k, k ∈ persisted_only →
               get (combined_of i) k = get (conf_of (inv_load i)) k) as Hkeys.
  { intros k Hk. apply get_combine_persisted. intros Hm.
    unfold persisted_only in Hk.
    repeat (apply elem_of_cons in Hk as [->|Hk];
            [by vm_compute in Hm; repeat (apply elem_of_cons in Hm as [?|Hm]);
                try (by apply elem_of_nil in Hm)|]).
    by apply elem_of_nil in Hk. }
  split; [done|].
  intros o Hin. apply NewApi_built_from in Hin as Hb.
  rewrite (bf_cacheEnabled _ _ _ Hb), (bf_failWithoutAssertions _ _ _ Hb),
    (bf_require _ _ _ Hb), (bf_snapshotDir _ _ _ Hb).
  rewrite (Hkeys "cache"), (Hkeys "failWithoutAssertions"), (Hkeys "require"),
    (Hkeys "snapshotDir") by repeat constructor.
  done.
Qed.

Lemma persisted_only_options_witness :
  get (combined_of run_with_persisted_cache_off) "cache" = VBool false ∧
  get (combined_of run_with_persisted_cache_off) "require" = VUndefined.
Proof.
  destruct (persisted_only_options quiet run_with_persisted_cache_off) as [Hkeys _].
  split.
  - rewrite (Hkeys "cache"); [reflexivity|repeat constructor].
  - rewrite (Hkeys "require"); [reflexivity|repeat constructor].
Defined.

(** *** How an invocation ends *)

Lemma resetCache_of_true c : resetCache_of c = true ↔ c = CmdResetCache.
Proof. by destruct c. Qed.

Lemma resetCache_of_false c : resetCache_of c = false ↔ c ≠ CmdResetCache.
Proof. by destruct c. Qed.

(** X10.  Once the arguments are parsed, [process.exit] is only ever
    called with code 1 or code 0, and with 0 only at the end of a
    [reset-cache] whose configuration loaded and whose cache files were
    deleted: no failing validation, preparation step, debug run or
    interrupt exits with code 0. *)
Theorem exit_codes (X : externals) (i : invocation) (code : Z) :
  ending_of (run X i) = Some (Exited code) → exit_code_allowed X i code.
Proof.
  intros Hexit.
  assert (obeys (fun _ => True)
                (fun e => ∀ c, e = Exited c → exit_code_allowed X i c)
                (run X i)) as [_ Hq].
  { apply run_obeys; try done.
    - intros c [= <-]. by left.
    - intros dir Hreset Hloaded Hdir Hdel c [= <-]. right.
      apply resetCache_of_true in Hreset. by eauto 10. }
  unfold ending_of in Hexit.
  destruct (snd (run X i)) as [[]|e] eqn:Hsnd; [done|].
  injection Hexit as ->. by apply (Hq (Exited code)).
Qed.

Lemma exit_codes_witness :
  exit_code_allowed quiet concurrency_minus_one 1 ∧
  exit_code_allowed quiet reset_cache_despite_everything 0.
Proof.
  split.
  - apply (exit_codes quiet concurrency_minus_one 1). reflexivity.
  - apply (exit_codes quiet reset_cache_despite_everything 0). reflexivity.
Defined.

(** *** The cache reset *)

(** X11.  [reset-cache] on a configuration that loaded clears the cache
    directory under the project directory and does nothing else: no
    flag is validated and no legacy key is looked at.  When the deletion
    succeeds it prints the confirmation and exits with code 0; when it
    fails it prints the error with its stack (or the error itself) and
    exits with code 1 without the confirmation.  A project directory
    that is not a string makes [path.join] throw. *)
Theorem reset_cache_outcome (X : externals) (conf argv : obj) :
  let i := {| inv_load := Loaded conf; inv_argv := argv;
              inv_command := CmdResetCache |} in
  (∀ dir, conf !! "projectDir" = Some (VStr dir) →
     del X (cacheDir_of X dir) = None →
     run X i
     = ([SetChalk (chalkOptions_of X (combine conf argv)); UpdateNotify;
         Del (cacheDir_of X dir);
         ConsoleError [Txt LF; Paint Green [Fig Tick];
                       Txt " Removed AVA cache files in "; Val (cacheDir_of X dir)]],
        inr (Exited 0))) ∧
  (∀ dir error, conf !! "projectDir" = Some (VStr dir) →
     del X (cacheDir_of X dir) = Some error →
     run X i
     = ([SetChalk (chalkOptions_of X (combine conf argv)); UpdateNotify;
         Del (cacheDir_of X dir);
         ConsoleError (diagnostic
           [Txt "Error removing AVA cache files in "; Val (cacheDir_of X dir);
            Txt LF; Txt LF; Paint Gray [Val (stack_or_self error)]])],
        inr (Exited 1))) ∧
  ((∀ dir, conf !! "projectDir" ≠ Some (VStr dir)) →
     run X i
     = ([SetChalk (chalkOptions_of X (combine conf argv)); UpdateNotify],
        inr (Thrown TypeError))).
Proof.
  intros i. unfold i, run. simpl. split_and!.
  - intros dir Hdir Hdel. unfold get. rewrite Hdir. simpl.
    fold (cacheDir_of X dir). by rewrite Hdel.
  - intros dir error Hdir Hdel. unfold get. rewrite Hdir. simpl.
    fold (cacheDir_of X dir). by rewrite Hdel.
  - intros Hdir. unfold get.
    destruct (conf !! "projectDir") as [[| | | |dir| |]|]; try done.
    by destruct (Hdir dir).
Qed.

Lemma reset_cache_outcome_witness :
  run quiet reset_cache_despite_everything
  = ([SetChalk (VObj [("level", num_of_Z 1)]); UpdateNotify;
      Del (VStr "/project/node_modules/.cache/ava/");
      ConsoleError [Txt LF; Paint Green [Fig Tick];
                    Txt " Removed AVA cache files in ";
                    Val (VStr "/project/node_modules/.cache/ava/")]],
     inr (Exited 0)) ∧
  run undeletable reset_cache_despite_everything
  = ([SetChalk (VObj [("level", num_of_Z 1)]); UpdateNotify;
      Del (VStr "/project/node_modules/.cache/ava/");
      ConsoleError (diagnostic
        [Txt "Error removing AVA cache files in ";
         Val (VStr "/project/node_modules/.cache/ava/");
         Txt LF; Txt LF; Paint Gray [Val (error_of "EACCES")]])],
     inr (Exited 1)).
Proof.
  split.
  - pose proof (reset_cache_outcome quiet (<["helpers" := VArr []]> sample_conf)
                  (inv_argv reset_cache_despite_everything)) as (Hok & _).
    exact (Hok "/project" eq_refl eq_refl).
  - pose proof (reset_cache_outcome undeletable (<["helpers" := VArr []]> sample_conf)
                  (inv_argv reset_cache_despite_everything)) as (_ & Hfail & _).
    exact (Hfail "/project" (error_of "EACCES") eq_refl eq_refl).
Defined.

(** *** Continuous integration and debugging *)

Lemma benign_surface_confError confError : benign (surface_confError confError).
Proof.
  unfold surface_confError. apply benign_when.
  destruct (truthy (prop confError "parent")); apply fatal_benign, fatal_exit.
Qed.

Lemma fatal_run_of_validate X i :
  inv_command i ≠ CmdResetCache →
  fatal (validate X (inv_argv i) (conf_of (inv_load i)) (combined_of i) (dbg_of i)
           (get (conf_of (inv_load i)) "nonSemVerExperiments")) →
  fatal (run X i).
Proof.
  intros Hc Hv. unfold run. cbv zeta.
  apply (benign_then_fatal (emit _)); [eexists; split; [|by left]; done|].
  apply benign_then_fatal; [apply benign_surface_confError|].
  apply (benign_then_fatal (emit _)); [eexists; split; [|by left]; done|].
  apply resetCache_of_false in Hc. rewrite Hc.
  by apply fatal_bind.
Qed.

Lemma fatal_validate_ci X (argv conf combined : obj) dbg exps :
  isCi X = true →
  truthy (get argv "watch") = true ∨ dbg ≠ None →
  fatal (validate X argv conf combined dbg exps).
Proof.
  intros Hci Hmode. unfold validate, check_watch, check_debug. rewrite Hci.
  destruct (truthy (get argv "watch")) eqn:Hwatch.
  - apply fatal_bind.
    destruct (truthy (get argv "tap") && negb (truthy (get conf "tap")));
      simpl; by eexists.
  - destruct Hmode as [?|Hdbg]; [done|].
    apply benign_then_fatal; [apply benign_ret|]. apply fatal_bind.
    destruct dbg; [|done]. simpl.
    destruct (truthy (get argv "tap") && negb (truthy (get conf "tap")));
      simpl; by eexists.
Qed.

(** X12.  Under CI neither the watch flag nor the debug command ever
    runs anything: every such invocation other than [reset-cache] ends
    with exit code 1 before any mode-specific effect.  With the
    configuration loaded and no ad-hoc TAP the diagnostic is the CI one
    for watch, or, without the watch flag, the CI one for debugging. *)
Theorem ci_gates_watch_and_debug (X : externals) (i : invocation) :
  isCi X = true →
  inv_command i ≠ CmdResetCache →
  truthy (get (inv_argv i) "watch") = true ∨ inv_command i = CmdDebug →
  fatal (run X i) ∧
  (∀ conf, inv_load i = Loaded conf → adhoc_tap (inv_argv i) conf = false →
     truthy (get (inv_argv i) "watch") = true →
     run X i
     = ([SetChalk (chalkOptions_of X (combined_of i)); UpdateNotify;
         ConsoleError (diagnostic
           [Txt "Watch mode is not available in CI, as it prevents AVA from terminating."])],
        inr (Exited 1))) ∧
  (∀ conf, inv_load i = Loaded conf → adhoc_tap (inv_argv i) conf = false →
     truthy (get (inv_argv i) "watch") = false →
     run X i
     = ([SetChalk (chalkOptions_of X (combined_of i)); UpdateNotify;
         ConsoleError (diagnostic [Txt "Debugging is not available in CI."])],
        inr (Exited 1))).
Proof.
  intros Hci Hc Hmode. split_and!.
  - apply fatal_run_of_validate; [done|]. apply fatal_validate_ci; [done|].
    destruct Hmode as [?|Hd]; [by left|right]. by rewrite Hd.
  - destruct i as [load argv c]. simpl in *. intros conf -> Htap Hwatch.
    unfold adhoc_tap in Htap. unfold run. simpl.
    apply resetCache_of_false in Hc. rewrite Hc.
    unfold validate, check_watch. by rewrite Hwatch, Htap, Hci.
  - destruct i as [load argv c]. simpl in *. intros conf -> Htap Hwatch.
    destruct Hmode as [?| ->]; [congruence|].
    unfold adhoc_tap in Htap. unfold run. simpl.
    unfold validate, check_watch, check_debug. by rewrite Hwatch, Htap, Hci.
Qed.

Lemma ci_gates_watch_and_debug_witness :
  run in_ci watch_run
  = ([SetChalk (VObj [("level", num_of_Z 1)]); UpdateNotify;
      ConsoleError (diagnostic
        [Txt "Watch mode is not available in CI, as it prevents AVA from terminating."])],
     inr (Exited 1)) ∧
  fatal (run in_ci debug_no_file).
Proof.
  split.
  - pose proof (ci_gates_watch_and_debug in_ci watch_run eq_refl
                  ltac:(discriminate) (or_introl eq_refl)) as (_ & Hwatch & _).
    exact (Hwatch sample_conf eq_refl eq_refl eq_refl).
  - pose proof (ci_gates_watch_and_debug in_ci debug_no_file eq_refl
                  ltac:(discriminate) (or_intror eq_refl)) as (Hfatal & _).
    exact Hfatal.
Defined.

(** X13.  The debug command, given without the watch flag on a
    configuration that loaded, rejects TAP asked for on the command line
    only: the process prints "The TAP reporter is not available when
    debugging." and exits with code 1.  With TAP persisted the debug
    checks reduce to the CI check and the timeout notice, and outside CI
    the debug step only prints the notice when a timeout is set. *)
Theorem debug_rejects_adhoc_tap (X : externals) (conf argv : obj) :
  let i := {| inv_load := Loaded conf; inv_argv := argv; inv_command := CmdDebug |} in
  truthy (get argv "watch") = false →
  (adhoc_tap argv conf = true →
   run X i
   = ([SetChalk (chalkOptions_of X (combine conf argv)); UpdateNotify;
       ConsoleError (diagnostic [Txt "The TAP reporter is not available when debugging."])],
      inr (Exited 1))) ∧
  (adhoc_tap argv conf = false → isCi X = false →
   check_debug (isCi X) argv conf (combine conf argv) (debug_of CmdDebug argv)
   = (if truthy (get (combine conf argv) "timeout") then [timeout_notice] else [],
      inl tt)).
Proof.
  intros i Hwatch. unfold adhoc_tap. split.
  - intros Htap. unfold i, run. simpl.
    unfold validate, check_watch, check_debug. by rewrite Hwatch, Htap.
  - intros Htap Hci. unfold check_debug. rewrite Htap, Hci. simpl.
    by destruct (truthy (get (combine conf argv) "timeout")).
Qed.

Lemma debug_rejects_adhoc_tap_witness :
  run quiet debug_with_tap_flag
  = ([SetChalk (VObj [("level", num_of_Z 1)]); UpdateNotify;
      ConsoleError (diagnostic [Txt "The TAP reporter is not available when debugging."])],
     inr (Exited 1)).
Proof.
  pose proof (debug_rejects_adhoc_tap quiet sample_conf (inv_argv debug_with_tap_flag)
                eq_refl) as (Hreject & _).
  exact (Hreject eq_refl).
Defined.

(** *** Preparation steps *)

(** X14.  Module types: [cjs] is always "commonjs" and [mjs] always
    "module"; [js] follows the [type] of the package manifest and is
    "commonjs" when the manifest has none.  A missing manifest (an error
    whose code is ENOENT) behaves like an empty one; any other error
    from reading the manifest is rethrown and ends the invocation. *)
Theorem module_types (X : externals) (projectDir : value) :
  (∀ pkg, readPkg_sync X projectDir = inl pkg →
     read_moduleTypes X projectDir
     = ([], inl (moduleTypes_for (prop (js_or pkg (VObj [])) "type")))) ∧
  (∀ error, readPkg_sync X projectDir = inr error →
     prop error "code" = VStr "ENOENT" →
     read_moduleTypes X projectDir = ([], inl (moduleTypes_for VUndefined))) ∧
  (∀ error, readPkg_sync X projectDir = inr error →
     prop error "code" ≠ VStr "ENOENT" →
     read_moduleTypes X projectDir = ([], inr (Thrown error))) ∧
  (∀ es types, read_moduleTypes X projectDir = (es, inl types) →
     es = [] ∧ prop types "cjs" = VStr "commonjs" ∧ prop types "mjs" = VStr "module" ∧
     prop types "js" ≠ VUndefined).
Proof.
  unfold read_moduleTypes, moduleTypes_for. split_and!.
  - intros pkg ->. reflexivity.
  - intros error -> Hcode. by rewrite Hcode.
  - intros error -> Hcode.
    destruct (strict_eq_str (prop error "code") "ENOENT") eqn:E; [|done].
    by apply strict_eq_str_true in E.
  - intros es types.
    destruct (readPkg_sync X projectDir) as [pkg|error]; simpl.
    + intros [= <- <-]. split_and!; try done.
      by destruct (prop (js_or pkg (VObj [])) "type").
    + destruct (strict_eq_str (prop error "code") "ENOENT"); simpl; [|done].
      by intros [= <- <-].
Qed.

Lemma module_types_witness :
  read_moduleTypes
    (custom_externals false None (inr (VObj [("code", VStr "ENOENT")]))
                      (inl (num_of_Z 1, VObj [])) (inl VUndefined))
    (VStr "/project")
  = ([], inl (VObj [("cjs", VStr "commonjs"); ("mjs", VStr "module");
                    ("js", VStr "commonjs")])) ∧
  read_moduleTypes
    (custom_externals false None (inl (VObj [("type", VStr "module")]))
                      (inl (num_of_Z 1, VObj [])) (inl VUndefined))
    (VStr "/project")
  = ([], inl (VObj [("cjs", VStr "commonjs"); ("mjs", VStr "module");
                    ("js", VStr "module")])).
Proof.
  split.
  - pose proof (module_types
                  (custom_externals false None (inr (VObj [("code", VStr "ENOENT")]))
                     (inl (num_of_Z 1, VObj [])) (inl VUndefined)) (VStr "/project"))
      as (_ & Hmissing & _).
    exact (Hmissing _ eq_refl eq_refl).
  - pose proof (module_types
                  (custom_externals false None (inl (VObj [("type", VStr "module")]))
                     (inl (num_of_Z 1, VObj [])) (inl VUndefined)) (VStr "/project"))
      as (Hpkg & _).
    exact (Hpkg _ eq_refl).
Defined.

Lemma add_provider_absent name resolve (conf : obj) projectDir providers :
  conf !! name = None →
  add_provider name resolve conf projectDir providers = ([], inl providers).
Proof. intros Hn. unfold add_provider, Reflect_has. by rewrite Hn. Qed.

Lemma add_provider_present name resolve (conf : obj) projectDir providers :
  is_Some (conf !! name) →
  add_provider name resolve conf projectDir providers
  = match resolve projectDir (get conf name) with
    | inl (level, main) => ([], inl (providers ++ [provider_entry name level main]))
    | inr error => exit [Val (prop error "message")]
    end.
Proof.
  intros Hn%Reflect_has_true. unfold add_provider. rewrite Hn.
  by destruct (resolve _ _) as [[level main]|error].
Qed.

(** X15.  Providers are resolved only for the keys the configuration
    has, Babel before TypeScript, and the list keeps that order.  A
    provider that fails to resolve ends the process with the error's
    message and exit code 1; when Babel fails, TypeScript is not
    resolved at all. *)
Theorem providers_in_order (X : externals) (conf : obj) (projectDir : value) :
  (conf !! "babel" = None → conf !! "typescript" = None →
   resolve_providers X conf projectDir = ([], inl [])) ∧
  (∀ bl bm tl tm,
     is_Some (conf !! "babel") → is_Some (conf !! "typescript") →
     provider_babel X projectDir (get conf "babel") = inl (bl, bm) →
     provider_typescript X projectDir (get conf "typescript") = inl (tl, tm) →
     resolve_providers X conf projectDir
     = ([], inl [provider_entry "babel" bl bm; provider_entry "typescript" tl tm])) ∧
  (∀ tl tm,
     conf !! "babel" = None → is_Some (conf !! "typescript") →
     provider_typescript X projectDir (get conf "typescript") = inl (tl, tm) →
     resolve_providers X conf projectDir
     = ([], inl [provider_entry "typescript" tl tm])) ∧
  (∀ error,
     is_Some (conf !! "babel") →
     provider_babel X projectDir (get conf "babel") = inr error →
     resolve_providers X conf projectDir
     = ([ConsoleError (diagnostic [Val (prop error "message")])], inr (Exited 1))) ∧
  (∀ error es providers,
     add_provider "babel" (provider_babel X) conf projectDir [] = (es, inl providers) →
     is_Some (conf !! "typescript") →
     provider_typescript X projectDir (get conf "typescript") = inr error →
     resolve_providers X conf projectDir
     = (es ++ [ConsoleError (diagnostic [Val (prop error "message")])],
        inr (Exited 1))).
Proof.
  unfold resolve_providers. split_and!.
  - intros Hb Ht. rewrite (add_provider_absent "babel") by done. simpl.
    by rewrite (add_provider_absent "typescript").
  - intros bl bm tl tm Hb Ht Hrb Hrt.
    rewrite (add_provider_present "babel"), Hrb by done. simpl.
    by rewrite (add_provider_present "typescript"), Hrt.
  - intros tl tm Hb Ht Hrt. rewrite (add_provider_absent "babel") by done. simpl.
    by rewrite (add_provider_present "typescript"), Hrt.
  - intros error Hb Hrb. by rewrite (add_provider_present "babel"), Hrb.
  - intros error es providers Hbabel Ht Hrt. rewrite Hbabel. simpl.
    by rewrite (add_provider_present "typescript"), Hrt.
Qed.

Lemma providers_in_order_witness :
  resolve_providers quiet (<["typescript" := VObj []]> (<["babel" := VBool true]> sample_conf))
                    (VStr "/project")
  = ([], inl [provider_entry "babel" (num_of_Z 1) (VObj []);
              provider_entry "typescript" (num_of_Z 1) (VObj [])]) ∧
  resolve_providers
    (custom_externals false None (inl (VObj [])) (inr (error_of "Cannot find @ava/babel"))
                      (inl VUndefined))
    (<["babel" := VBool true]> sample_conf) (VStr "/project")
  = ([ConsoleError (diagnostic [Val (VStr "Cannot find @ava/babel")])], inr (Exited 1)).
Proof.
  split.
  - pose proof (providers_in_order quiet
                  (<["typescript" := VObj []]> (<["babel" := VBool true]> sample_conf))
                  (VStr "/project")) as (_ & Hboth & _).
    apply Hboth; try reflexivity; by eexists.
  - pose proof (providers_in_order
                  (custom_externals false None (inl (VObj []))
                     (inr (error_of "Cannot find @ava/babel")) (inl VUndefined))
                  (<["babel" := VBool true]> sample_conf) (VStr "/project"))
      as (_ & _ & _ & Hfail & _).
    apply (Hfail (error_of "Cannot find @ava/babel")); [by eexists|reflexivity].
Defined.

(** *** The engine's run and the watcher *)

(** X16.  When the engine's run is rejected, a one-shot invocation ends
    with that error uncaught: no exit code is set, the reporter's run
    view is not ended and the debug instruction is not printed, even if
    a debug plan without a single file was seen. *)
Theorem engine_rejection_uncaught (X : externals) (options : api_options)
    (filter : value) (plans : list plan) (error : value) :
  api_run X options filter = (plans, inr error) →
  uninterrupted plans →
  one_shot X options filter
  = (ApiRun filter :: (ReporterStartRun <$> plans), inr (Thrown error)).
Proof.
  intros Hrun Hcalm. unfold one_shot.
  rewrite Hrun, observe_runs_uninterrupted by done. simpl.
  by rewrite app_nil_r.
Qed.

Lemma engine_rejection_uncaught_witness :
  one_shot (sample_externals [debug_plan [] []] (inr (error_of "worker crashed")))
           sample_options (VArr [])
  = ([ApiRun (VArr []); ReporterStartRun (debug_plan [] [])],
     inr (Thrown (error_of "worker crashed"))).
Proof.
  apply (engine_rejection_uncaught _ sample_options (VArr []) [debug_plan [] []]).
  - reflexivity.
  - repeat constructor.
Defined.

Lemma deliver_shape evts :
  deliver evts = ([], inl tt) ∨ deliver evts = ([ReporterEndRun], inr (Exited 1)).
Proof.
  induction evts as [|evt evts IH]; cbn [deliver]; [by left|].
  destruct (is_interrupt_dec evt) as [Hi|Hn].
  - right. by rewrite on_stateChange_interrupt.
  - rewrite on_stateChange_other by done. simpl.
    destruct IH as [-> | ->]; [by left|by right].
Qed.

Lemma observe_watch_shape plans :
  ∃ es, forallb reporter_traffic es = true ∧
        (observe_watch plans = (es, inl tt) ∨
         observe_watch plans = (es, inr (Exited 1))).
Proof.
  induction plans as [|p plans (es & Hes & IH)]; cbn [observe_watch].
  - exists []. split; [done|by left].
  - unfold on_run.
    destruct (deliver_shape (plan_status p)) as [Hd | Hd]; simpl; rewrite Hd; simpl.
    + exists (ReporterStartRun p :: es). split; [done|].
      destruct IH as [-> | ->]; [by left|by right].
    + exists [ReporterStartRun p; ReporterEndRun]. split; [done|by right].
Qed.

Lemma observe_watch_uninterrupted plans :
  uninterrupted plans → observe_watch plans = (ReporterStartRun <$> plans, inl tt).
Proof.
  induction 1 as [|p plans Hp _ IH]; cbn [observe_watch]; [done|].
  unfold on_run. by rewrite (deliver_calm _ Hp), IH.
Qed.

(** X17.  In watch mode the orchestrator's own effects are: start the
    watcher, observe standard input, then relay each run start to the
    reporter, and end the run view when an interrupt arrives.  It never
    sets an exit code and never prints a diagnostic, so the debug
    single-file requirement is not enforced there.  It calls
    [process.exit] only with code 1 and only when a state change of type
    "interrupt" has arrived; without one, every run the watcher triggers
    is relayed and [process.exit] is not called. *)
Theorem watch_mode_only_relays (X : externals) (options : api_options)
    (filter : value) :
  (∃ es, trace (watch X options filter) = NewWatcher filter :: ObserveStdin :: es ∧
         forallb reporter_traffic es = true) ∧
  (∀ code, ending_of (watch X options filter) = Some (Exited code) →
           code = 1 ∧ ¬ uninterrupted (watcher_runs X options filter)) ∧
  (uninterrupted (watcher_runs X options filter) →
   trace (watch X options filter)
   = NewWatcher filter :: ObserveStdin ::
     (ReporterStartRun <$> watcher_runs X options filter)).
Proof.
  unfold watch. split_and!.
  - destruct (observe_watch_shape (watcher_runs X options filter))
      as (es & Hes & [Hw | Hw]); exists es; rewrite Hw; simpl;
      by rewrite ?app_nil_r.
  - intros code.
    destruct (observe_watch_shape (watcher_runs X options filter))
      as (es & Hes & [Hw | Hw]); rewrite Hw; simpl; [done|].
    intros [= <-]. split; [done|]. intros Hcalm.
    rewrite observe_watch_uninterrupted in Hw by done. discriminate Hw.
  - intros Hcalm. rewrite observe_watch_uninterrupted by done. simpl.
    by rewrite app_nil_r.
Qed.

Lemma watch_mode_only_relays_witness :
  trace (watch (sample_externals [two_files_plan] (inl (status_of 0)))
               sample_options (VArr []))
  = [NewWatcher (VArr []); ObserveStdin; ReporterStartRun two_files_plan].
Proof.
  pose proof (watch_mode_only_relays
                (sample_externals [two_files_plan] (inl (status_of 0)))
                sample_options (VArr [])) as (_ & _ & Hcalm).
  apply Hcalm. repeat constructor.
Defined.

Lemma read_moduleTypes_inl X projectDir es types :
  read_moduleTypes X projectDir = (es, inl types) → es = [].
Proof.
  unfold read_moduleTypes.
  destruct (readPkg_sync X projectDir) as [pkg|error]; simpl; [by intros [= <- _]|].
  destruct (strict_eq_str (prop error "code") "ENOENT"); simpl; [|done].
  by intros [= <- _].
Qed.

Lemma add_provider_inl name resolve (conf : obj) projectDir providers es providers' :
  add_provider name resolve conf projectDir providers = (es, inl providers') → es = [].
Proof.
  unfold add_provider. destruct (Reflect_has conf name); [|by intros [= <- _]].
  destruct (resolve _ _) as [[level main]|error]; [by intros [= <- _]|done].
Qed.

Lemma resolve_providers_inv X (conf : obj) projectDir es providers :
  resolve_providers X conf projectDir = (es, inl providers) →
  ∃ providers1,
    add_provider "babel" (provider_babel X) conf projectDir [] = ([], inl providers1) ∧
    add_provider "typescript" (provider_typescript X) conf projectDir providers1
    = ([], inl providers).
Proof.
  unfold resolve_providers.
  destruct (add_provider "babel" _ _ _ _) as [es1 [providers1|e]] eqn:H1; [|done].
  simpl.
  destruct (add_provider "typescript" _ _ _ _) as [es2 [providers2|e]] eqn:H2; [|done].
  intros [= <- <-]. exists providers1.
  apply add_provider_inl in H1 as ?. apply add_provider_inl in H2 as ?. by subst.
Qed.

(** X18.  The four normalization steps fail fast and in order: in a run
    that got through validation, the package manifest and the providers,
    the first of environment-variable validation, extension
    normalization, glob normalization and node-argument normalization
    to throw ends the process with that error's message and exit code 1;
    the later steps are not consulted and the engine is never built. *)
Theorem preparation_fails_fast (X : externals) (i : invocation)
    (types : value) (providers : list value) (error : value) :
  let conf := conf_of (inv_load i) in
  let stopped :=
    (SetChalk (chalkOptions_of X (combined_of i)) :: UpdateNotify ::
     validation_notices (combined_of i) (dbg_of i) (get conf "nonSemVerExperiments") ++
     [ConsoleError (diagnostic [Val (prop error "message")])],
     inr (Exited 1)) : M unit in
  truthy (confError_of (inv_load i)) = false →
  inv_command i ≠ CmdResetCache →
  validation_passes (isCi X) (inv_argv i) conf (combined_of i) (dbg_of i)
    (get conf "nonSemVerExperiments") = true →
  (∃ es, read_moduleTypes X (get conf "projectDir") = (es, inl types)) →
  (∃ es, resolve_providers X conf (get conf "projectDir") = (es, inl providers)) →
  (validateEnvironmentVariables X (get conf "environmentVariables") = inr error →
   run X i = stopped) ∧
  (∀ env,
     validateEnvironmentVariables X (get conf "environmentVariables") = inl env →
     normalizeExtensions X (get conf "extensions") providers = inr error →
     run X i = stopped) ∧
  (∀ env extensions,
     validateEnvironmentVariables X (get conf "environmentVariables") = inl env →
     normalizeExtensions X (get conf "extensions") providers = inl extensions →
     normalizeGlobs X (get conf "files") (get conf "ignoredByWatcher") extensions
                    providers = inr error →
     run X i = stopped) ∧
  (∀ env extensions globs,
     validateEnvironmentVariables X (get conf "environmentVariables") = inl env →
     normalizeExtensions X (get conf "extensions") providers = inl extensions →
     normalizeGlobs X (get conf "files") (get conf "ignoredByWatcher") extensions
                    providers = inl globs →
     normalizeNodeArguments X (get conf "nodeArguments")
                            (get (inv_argv i) "node-arguments") = inr error →
     run X i = stopped).
Proof.
  intros conf stopped Hloaded Hc Hvalid [es1 Htypes] [es2 Hproviders].
  subst conf stopped.
  apply read_moduleTypes_inl in Htypes as ?. subst es1.
  apply resolve_providers_inv in Hproviders as (providers1 & Hp1 & Hp2).
  apply resetCache_of_false in Hc.
  destruct (validate_by_cases X (inv_argv i) (conf_of (inv_load i))
              (combine (conf_of (inv_load i)) (inv_argv i))
              (debug_of (inv_command i) (inv_argv i))
              (get (conf_of (inv_load i)) "nonSemVerExperiments")) as [Hpass _].
  specialize (Hpass Hvalid).
  split_and!.
  - intros Henv. unfold run. cbv zeta.
    rewrite surface_confError_falsy, Hc, Hpass, Htypes, Hp1 by done.
    cbn [mbind M_bind emit mret M_ret app]. rewrite Hp2. cbn [mbind M_bind mret M_ret app]. rewrite Henv.
    cbn [mbind M_bind or_exit exit emit process_exit finish app].
    reflexivity.
  - intros env Henv Hext. unfold run. cbv zeta.
    rewrite surface_confError_falsy, Hc, Hpass, Htypes, Hp1 by done.
    cbn [mbind M_bind emit mret M_ret app]. rewrite Hp2. cbn [mbind M_bind mret M_ret app]. rewrite Henv.
    cbn [mbind M_bind or_exit mret M_ret app]. rewrite Hext.
    cbn [mbind M_bind or_exit exit emit process_exit finish app].
    reflexivity.
  - intros env extensions Henv Hext Hglobs. unfold run. cbv zeta.
    rewrite surface_confError_falsy, Hc, Hpass, Htypes, Hp1 by done.
    cbn [mbind M_bind emit mret M_ret app]. rewrite Hp2. cbn [mbind M_bind mret M_ret app]. rewrite Henv.
    cbn [mbind M_bind or_exit mret M_ret app]. rewrite Hext.
    cbn [mbind M_bind or_exit mret M_ret app]. rewrite Hglobs.
    cbn [mbind M_bind or_exit exit emit process_exit finish app].
    reflexivity.
  - intros env extensions globs Henv Hext Hglobs Hnode. unfold run. cbv zeta.
    rewrite surface_confError_falsy, Hc, Hpass, Htypes, Hp1 by done.
    cbn [mbind M_bind emit mret M_ret app]. rewrite Hp2. cbn [mbind M_bind mret M_ret app]. rewrite Henv.
    cbn [mbind M_bind or_exit mret M_ret app]. rewrite Hext.
    cbn [mbind M_bind or_exit mret M_ret app]. rewrite Hglobs.
    cbn [mbind M_bind or_exit mret M_ret app]. rewrite Hnode.
    cbn [mbind M_bind or_exit exit emit process_exit finish app].
    reflexivity.
Qed.

Lemma preparation_fails_fast_witness :
  run (custom_externals false None (inl (VObj [])) (inl (num_of_Z 1, VObj []))
                        (inr (error_of "environmentVariables must be an object")))
      plain_run
  = ([SetChalk (VObj [("level", num_of_Z 1)]); UpdateNotify;
      ConsoleError (diagnostic [Val (VStr "environmentVariables must be an object")])],
     inr (Exited 1)).
Proof.
  pose proof (preparation_fails_fast
                (custom_externals false None (inl (VObj [])) (inl (num_of_Z 1, VObj []))
                   (inr (error_of "environmentVariables must be an object")))
                plain_run (moduleTypes_for VUndefined) []
                (error_of "environmentVariables must be an object")
                eq_refl ltac:(discriminate) eq_refl
                (ex_intro _ [] eq_refl) (ex_intro _ [] eq_refl)) as (Henv & _).
  exact (Henv eq_refl).
Defined.

(** X19.  The engine gets a parallel-run descriptor only under CI with
    the external parallelization signal present: otherwise the option
    is [null]; when present, the signal's [index] and [total] are passed
    through as [currentIndex] and [totalRuns]. *)
Theorem parallel_runs_only_in_ci (X : externals) (i : invocation) (o : api_options) :
  NewApi o ∈ trace (run X i) →
  (isCi X = false ∨ truthy (ciParallelVars X) = false → parallelRuns o = VNull) ∧
  (isCi X = true → truthy (ciParallelVars X) = true →
   parallelRuns o = VObj [("currentIndex", prop (ciParallelVars X) "index");
                          ("totalRuns", prop (ciParallelVars X) "total")]).
Proof.
  intros Hin. apply NewApi_built_from in Hin as Hb.
  rewrite (bf_parallelRuns _ _ _ Hb). unfold parallelRuns_of. split.
  - intros [-> | ->]; [done|]. by rewrite andb_false_r.
  - by intros -> ->.
Qed.

Lemma parallel_runs_only_in_ci_witness : parallelRuns sample_options = VNull.
Proof.
  assert (NewApi sample_options ∈ trace (run quiet plain_run)) as Hin.
  { apply list_elem_of_In. vm_compute. right. right. left. reflexivity. }
  destruct (parallel_runs_only_in_ci quiet plain_run sample_options Hin) as [Hnull _].
  apply Hnull. by left.
Defined.
